(** * score-atelier: the privacy-score front end

    A shallow embedding of the typed HTTP client ([privacy-api]), of the
    state hooks built on it ([use-privacy-api-simple]) and of the two
    calculator surfaces ([SimplePrivacyChecker], [PermissionsChecker]),
    followed by the properties the specification states about them.

    Conventions.
    - A JavaScript string is a [string]: the bytes of its UTF-8 encoding.
    - A JavaScript value that is only inspected for truthiness or for a
      property is a [Js.Value].
    - React state is passed explicitly.  An [async] function is a
      computation in the [Async] monad: it reads and writes the state slots
      of the hook it belongs to, may throw, and leaves a log of what it did
      to the outside (requests, frames rendered while suspended, alerts). *)

From Stdlib Require Import ZArith NArith QArith List String Ascii Bool Lia.
From Stdlib Require Import DecimalString.
From stdpp Require Import base option list strings gmap fin_maps.

Import ListNotations.
Local Open Scope string_scope.
Local Open Scope list_scope.
#[local] Set Warnings "-register-all".

(* ===================================================================== *)
(** ** JavaScript values and strings                                      *)
(* ===================================================================== *)

Module Js.

(** Values as [JSON.parse] produces them, plus [undefined].  An object
    holds its own properties, one binding per key. *)
Inductive Value : Type :=
| Undefined
| Null
| Bool (b : bool)
| Num (q : Q)
| Str (s : string)
| Arr (items : list Value)
| Obj (props : list (string * Value)).

(** ToBoolean. *)
Definition truthy (v : Value) : bool :=
  match v with
  | Undefined | Null => false
  | Bool b => b
  | Num q => negb (Qeq_bool q 0)
  | Str s => negb (String.eqb s "")
  | Arr _ | Obj _ => true
  end.

(** [a || b] and [a && b] on values (the right operand is pure wherever
    these are used). *)
Definition or (a b : Value) : Value := if truthy a then a else b.
Definition and (a b : Value) : Value := if truthy a then b else a.

Fixpoint assoc (k : string) (props : list (string * Value)) : Value :=
  match props with
  | [] => Undefined
  | (k', v) :: rest => if String.eqb k k' then v else assoc k rest
  end.

(** [v.k] for one of the plain names read by the client ([detail],
    [message]): [None] is the TypeError raised on [null] and
    [undefined]; primitives and arrays have no such property. *)
Definition prop (v : Value) (k : string) : option Value :=
  match v with
  | Undefined | Null => None
  | Obj props => Some (assoc k props)
  | _ => Some Undefined
  end.

(** *** [String.prototype.trim]

    WhiteSpace and LineTerminator code points, each by its UTF-8 bytes:
    U+0009..U+000D, U+0020, U+00A0, U+1680, U+2000..U+200A, U+2028,
    U+2029, U+202F, U+205F, U+3000, U+FEFF. *)
Definition white_space : list (list N) :=
  [ [9]; [10]; [11]; [12]; [13]; [32];
    [194; 160];
    [225; 154; 128];
    [226; 128; 128]; [226; 128; 129]; [226; 128; 130]; [226; 128; 131];
    [226; 128; 132]; [226; 128; 133]; [226; 128; 134]; [226; 128; 135];
    [226; 128; 136]; [226; 128; 137]; [226; 128; 138];
    [226; 128; 168]; [226; 128; 169]; [226; 128; 175];
    [226; 129; 159];
    [227; 128; 128];
    [239; 187; 191] ]%N.

Fixpoint starts_with (pat l : list N) : bool :=
  match pat, l with
  | [], _ => true
  | p :: pat', x :: l' => N.eqb p x && starts_with pat' l'
  | _ :: _, [] => false
  end.

(** Number of bytes of the white-space character [l] starts with, [0] if
    it starts with none. *)
Fixpoint leading (pats : list (list N)) (l : list N) : nat :=
  match pats with
  | [] => 0
  | pat :: rest => if starts_with pat l then length pat else leading rest l
  end.

Fixpoint strip (pats : list (list N)) (fuel : nat) (l : list N) : list N :=
  match fuel with
  | O => l
  | S fuel' =>
      match leading pats l with
      | O => l
      | k => strip pats fuel' (drop k l)
      end
  end.

Definition bytes (s : string) : list N := map N_of_ascii (list_ascii_of_string s).
Definition of_bytes (l : list N) : string := string_of_list_ascii (map ascii_of_N l).

Definition trimStart (l : list N) : list N := strip white_space (length l) l.
Definition trimEnd (l : list N) : list N :=
  rev (strip (map (@rev N) white_space) (length l) (rev l)).

Definition trim (s : string) : string := of_bytes (trimEnd (trimStart (bytes s))).

(** Template-literal rendering of a non-negative integer. *)
Definition decimal (n : N) : string := NilEmpty.string_of_uint (N.to_uint n).

(** *** ToString

    [number_string] is Number::toString on the integers of magnitude up to
    2^53, which every double holds exactly: their decimal digits.  The text
    of any other number depends on its binary representation and is not
    computed here ([None]). *)
Definition integer (q : Q) : option Z :=
  let r := Qred q in
  if Pos.eqb (Qden r) 1 then Some (Qnum r) else None.

Definition number_string (q : Q) : option string :=
  match integer q with
  | Some z =>
      if (Z.abs z <=? 2 ^ 53)%Z then
        Some (if (z <? 0)%Z then String.append "-" (decimal (Z.abs_N z))
              else decimal (Z.abs_N z))
      else None
  | None => None
  end.

(** [String(v)]: a string is itself, a plain object is "[object Object]",
    an array is its elements joined by commas, with [null] and [undefined]
    elements left empty. *)
Fixpoint to_string (v : Value) : option string :=
  match v with
  | Undefined => Some "undefined"
  | Null => Some "null"
  | Bool b => Some (if b then "true" else "false")
  | Num q => number_string q
  | Str s => Some s
  | Arr items =>
      (fix join (l : list Value) : option string :=
         match l with
         | [] => Some ""
         | x :: rest =>
             let element :=
               match x with
               | Undefined | Null => Some ""
               | _ => to_string x
               end in
             match element, rest with
             | Some e, [] => Some e
             | Some e, _ :: _ =>
                 match join rest with
                 | Some r => Some (String.append e (String.append "," r))
                 | None => None
                 end
             | None, _ => None
             end
         end) items
  | Obj _ => Some "[object Object]"
  end.

(** A string the program holds: [Exact s] is the string [s]; [StringOf v]
    is the string [String(v)] of a value whose text [to_string] does not
    compute (a number that is not a small integer, or an array holding
    one). *)
Inductive Text : Type :=
| Exact (s : string)
| StringOf (v : Value).

Definition to_text (v : Value) : Text :=
  match to_string v with
  | Some s => Exact s
  | None => StringOf v
  end.


End Js.

(* ===================================================================== *)
(** ** Domain records ([privacy-api])                                      *)
(* ===================================================================== *)

(** Keys of the thirteen permission counters of [AppData]. *)
Inductive PermField : Type :=
| K_perm_location | K_perm_camera | K_perm_microphone | K_perm_contacts
| K_perm_phone | K_perm_sms | K_perm_storage | K_perm_calendar
| K_perm_network | K_perm_device_info | K_perm_accounts | K_perm_system
| K_perm_other.

Inductive TextField : Type := K_app_name | K_category.

Inductive FlagField : Type := K_free | K_has_ads | K_has_iap | K_is_game | K_is_social.

#[global] Instance PermField_eq_dec : EqDecision PermField.
Proof. solve_decision. Defined.
#[global] Instance TextField_eq_dec : EqDecision TextField.
Proof. solve_decision. Defined.
#[global] Instance FlagField_eq_dec : EqDecision FlagField.
Proof. solve_decision. Defined.

Definition perm_name (f : PermField) : string :=
  match f with
  | K_perm_location => "perm_location"
  | K_perm_camera => "perm_camera"
  | K_perm_microphone => "perm_microphone"
  | K_perm_contacts => "perm_contacts"
  | K_perm_phone => "perm_phone"
  | K_perm_sms => "perm_sms"
  | K_perm_storage => "perm_storage"
  | K_perm_calendar => "perm_calendar"
  | K_perm_network => "perm_network"
  | K_perm_device_info => "perm_device_info"
  | K_perm_accounts => "perm_accounts"
  | K_perm_system => "perm_system"
  | K_perm_other => "perm_other"
  end.

Definition text_name (f : TextField) : string :=
  match f with K_app_name => "app_name" | K_category => "category" end.

Definition flag_name (f : FlagField) : string :=
  match f with
  | K_free => "free" | K_has_ads => "has_ads" | K_has_iap => "has_iap"
  | K_is_game => "is_game" | K_is_social => "is_social"
  end.

Module AppData.

(** The permission counters are integers, as the data model has them and
    as every caller in the repository supplies them; a [number] that is
    not an integer (a fraction, [NaN]) is outside this embedding. *)
Record t : Type := mk {
  app_name : string;
  category : string;
  free : bool;
  has_ads : bool;
  has_iap : bool;
  is_game : bool;
  is_social : bool;
  perm_location : Z;
  perm_camera : Z;
  perm_microphone : Z;
  perm_contacts : Z;
  perm_phone : Z;
  perm_sms : Z;
  perm_storage : Z;
  perm_calendar : Z;
  perm_network : Z;
  perm_device_info : Z;
  perm_accounts : Z;
  perm_system : Z;
  perm_other : Z
}.

(** [d[field]] for a permission key. *)
Definition perm (d : t) (f : PermField) : Z :=
  match f with
  | K_perm_location => perm_location d
  | K_perm_camera => perm_camera d
  | K_perm_microphone => perm_microphone d
  | K_perm_contacts => perm_contacts d
  | K_perm_phone => perm_phone d
  | K_perm_sms => perm_sms d
  | K_perm_storage => perm_storage d
  | K_perm_calendar => perm_calendar d
  | K_perm_network => perm_network d
  | K_perm_device_info => perm_device_info d
  | K_perm_accounts => perm_accounts d
  | K_perm_system => perm_system d
  | K_perm_other => perm_other d
  end.

(** [{ ...d, [f]: v }], one setter per field type. *)
Definition set_perm (f : PermField) (v : Z) (d : t) : t :=
  let at_ (g : PermField) (old : Z) := if decide (f = g) then v else old in
  {| app_name := app_name d; category := category d; free := free d;
     has_ads := has_ads d; has_iap := has_iap d; is_game := is_game d;
     is_social := is_social d;
     perm_location := at_ K_perm_location (perm_location d);
     perm_camera := at_ K_perm_camera (perm_camera d);
     perm_microphone := at_ K_perm_microphone (perm_microphone d);
     perm_contacts := at_ K_perm_contacts (perm_contacts d);
     perm_phone := at_ K_perm_phone (perm_phone d);
     perm_sms := at_ K_perm_sms (perm_sms d);
     perm_storage := at_ K_perm_storage (perm_storage d);
     perm_calendar := at_ K_perm_calendar (perm_calendar d);
     perm_network := at_ K_perm_network (perm_network d);
     perm_device_info := at_ K_perm_device_info (perm_device_info d);
     perm_accounts := at_ K_perm_accounts (perm_accounts d);
     perm_system := at_ K_perm_system (perm_system d);
     perm_other := at_ K_perm_other (perm_other d) |}.

Definition set_text (f : TextField) (v : string) (d : t) : t :=
  let at_ (g : TextField) (old : string) := if decide (f = g) then v else old in
  {| app_name := at_ K_app_name (app_name d);
     category := at_ K_category (category d);
     free := free d; has_ads := has_ads d; has_iap := has_iap d;
     is_game := is_game d; is_social := is_social d;
     perm_location := perm_location d; perm_camera := perm_camera d;
     perm_microphone := perm_microphone d; perm_contacts := perm_contacts d;
     perm_phone := perm_phone d; perm_sms := perm_sms d;
     perm_storage := perm_storage d; perm_calendar := perm_calendar d;
     perm_network := perm_network d; perm_device_info := perm_device_info d;
     perm_accounts := perm_accounts d; perm_system := perm_system d;
     perm_other := perm_other d |}.

Definition set_flag (f : FlagField) (v : bool) (d : t) : t :=
  let at_ (g : FlagField) (old : bool) := if decide (f = g) then v else old in
  {| app_name := app_name d; category := category d;
     free := at_ K_free (free d);
     has_ads := at_ K_has_ads (has_ads d);
     has_iap := at_ K_has_iap (has_iap d);
     is_game := at_ K_is_game (is_game d);
     is_social := at_ K_is_social (is_social d);
     perm_location := perm_location d; perm_camera := perm_camera d;
     perm_microphone := perm_microphone d; perm_contacts := perm_contacts d;
     perm_phone := perm_phone d; perm_sms := perm_sms d;
     perm_storage := perm_storage d; perm_calendar := perm_calendar d;
     perm_network := perm_network d; perm_device_info := perm_device_info d;
     perm_accounts := perm_accounts d; perm_system := perm_system d;
     perm_other := perm_other d |}.

End AppData.

Module PredictionResult.

Record t : Type := mk {
  app_name : string;
  privacy_level : string;
  privacy_score : Q;
  confidence : Q;
  level_probabilities : list (string * Q);
  risk_assessment : string;
  key_risk_factors : list string;
  recommendations : list string;
  timestamp : string
}.

End PredictionResult.

(* ===================================================================== *)
(** ** Errors, requests and responses                                      *)
(* ===================================================================== *)

Module PrivacyApiError.

(** [message] is [err.message]: the constructor hands its first argument
    to [Error], which stores its string form.  [status] and [details] are
    optional. *)
Record t : Type := mk {
  message : Js.Text;
  status : option N;
  details : option Js.Value
}.

End PrivacyApiError.

(** What a [throw] (or a rejected promise) carries, as far as the client's
    [catch] tells apart. *)
Inductive Thrown : Type :=
| ThrownApi (e : PrivacyApiError.t)     (* instanceof PrivacyApiError *)
| ThrownError (message : string)        (* any other Error *)
| ThrownValue.                          (* not an Error at all *)

Record RequestInit : Type := mkInit {
  method : option string;
  headers : option (list (string * string));
  body : option AppData.t                 (* JSON.stringify(appData) *)
}.

Record Request : Type := mkRequest {
  url : string;
  init : RequestInit
}.

Module Response.

(** [json] is what [response.json()] settles to. *)
Record t : Type := mk {
  ok : bool;
  status : N;
  statusText : string;
  json : Thrown + Js.Value
}.

End Response.

(* ===================================================================== *)
(** ** Hook state and asynchronous computations                            *)
(* ===================================================================== *)

Module Hook.

(** The three [useState] slots of a request hook.  [error] is typed
    [PrivacyApiError | null]; the cast that fills it is unchecked, so the
    slot holds whatever was caught. *)
Record State : Type := mk {
  data : option Js.Value;
  loading : bool;
  error : option Thrown
}.

Definition initial : State := {| data := None; loading := false; error := None |}.

End Hook.

Inductive Event : Type :=
| Fetched (r : Request)              (* fetch(url, init) was called *)
| Rendered (s : Hook.State)          (* slots shown while the call is pending *)
| Alerted (msg : string)             (* alert(msg) *)
| ConsoleError (msg : string) (e : Thrown).

Record World : Type := mkWorld {
  slots : Hook.State;
  log : list Event
}.

(** The requests a run sent out. *)
Definition requests (evs : list Event) : list Request :=
  omap (fun ev => match ev with Fetched r => Some r | _ => None end) evs.

Definition Async (A : Type) : Type := World -> (Thrown + A) * World.

#[global] Instance Async_ret : MRet Async :=
  fun A (x : A) w => (inr x, w).

#[global] Instance Async_bind : MBind Async :=
  fun A B (k : A -> Async B) (c : Async A) w =>
    match c w with
    | (inr x, w') => k x w'
    | (inl e, w') => (inl e, w')
    end.

Definition throw {A : Type} (e : Thrown) : Async A := fun w => (inl e, w).

(** [try { body } catch (err) { handler err }] *)
Definition try_catch {A : Type} (body : Async A) (handler : Thrown -> Async A) : Async A :=
  fun w =>
    match body w with
    | (inl e, w') => handler e w'
    | (inr x, w') => (inr x, w')
    end.

(** [try { body } finally { fin }] *)
Definition try_finally {A : Type} (body : Async A) (fin : Async unit) : Async A :=
  fun w =>
    let '(r, w1) := body w in
    match fin w1 with
    | (inl e, w2) => (inl e, w2)
    | (inr _, w2) => (r, w2)
    end.

Definition emit (ev : Event) : Async unit :=
  fun w => (inr tt, {| slots := slots w; log := log w ++ [ev] |}).

Definition setData (v : option Js.Value) : Async unit :=
  fun w => (inr tt,
            {| slots := {| Hook.data := v;
                           Hook.loading := Hook.loading (slots w);
                           Hook.error := Hook.error (slots w) |};
               log := log w |}).

Definition setLoading (b : bool) : Async unit :=
  fun w => (inr tt,
            {| slots := {| Hook.data := Hook.data (slots w);
                           Hook.loading := b;
                           Hook.error := Hook.error (slots w) |};
               log := log w |}).

Definition setError (e : option Thrown) : Async unit :=
  fun w => (inr tt,
            {| slots := {| Hook.data := Hook.data (slots w);
                           Hook.loading := Hook.loading (slots w);
                           Hook.error := e |};
               log := log w |}).

(** Settling of a promise the runtime already knows the outcome of. *)
Definition await {A : Type} (outcome : Thrown + A) : Async A :=
  fun w => (outcome, w).

(** [v.k], raising the (V8-worded) TypeError on [null] and [undefined]. *)
Definition get (v : Js.Value) (k : string) : Async Js.Value :=
  match Js.prop v k with
  | Some x => mret x
  | None =>
      throw (ThrownError
               ("Cannot read properties of "
                  +:+ (match v with Js.Undefined => "undefined" | _ => "null" end)
                  +:+ " (reading '" +:+ k +:+ "')"))
  end.

(* ===================================================================== *)
(** ** The API client ([privacy-api])                                      *)
(* ===================================================================== *)

Definition API_BASE_URL : string := "http://localhost:8003".

Record PrivacyApiClient : Type := { baseUrl : string }.

(** [{ ...a, ...b }] on header objects: the bindings of [b] win. *)
Definition spread_headers (a b : list (string * string)) : list (string * string) :=
  List.filter (fun kv => negb (existsb (fun kv' => String.eqb (fst kv) (fst kv')) b)) a ++ b.

(** [{ headers: {'Content-Type': 'application/json', ...options.headers},
       ...options }]: every key [options] carries replaces the one before. *)
Definition request_init (options : RequestInit) : RequestInit :=
  let merged :=
    spread_headers [("Content-Type", "application/json")]
                   (default [] (headers options)) in
  {| method := method options;
     headers := Some (default merged (headers options));
     body := body options |}.

Section Client.

(** The network: what [fetch] settles to for a request. *)
Variable fetch : Request -> Thrown + Response.t.

Definition await_fetch (r : Request) : Async Response.t :=
  fun w => (fetch r,
            {| slots := slots w; log := log w ++ [Fetched r; Rendered (slots w)] |}).

Definition makeRequest (this : PrivacyApiClient) (endpoint : string)
    (options : RequestInit) : Async Js.Value :=
  let url := baseUrl this +:+ endpoint in
  try_catch
    (response ← await_fetch {| url := url; init := request_init options |};
     if negb (Response.ok response) then
       errorDetails ←
         try_catch (await (Response.json response))
                   (fun _ => mret (Js.Obj [("message", Js.Str (Response.statusText response))]));
       detail ← get errorDetails "detail";
       first ← (if Js.truthy detail then mret detail else get errorDetails "message");
       throw (ThrownApi
                {| PrivacyApiError.message :=
                     Js.to_text
                       (Js.or first
                          (Js.Str ("HTTP " +:+ Js.decimal (Response.status response))));
                   PrivacyApiError.status := Some (Response.status response);
                   PrivacyApiError.details := Some errorDetails |})
     else
       await (Response.json response))
    (fun error =>
       match error with
       | ThrownApi _ => throw error
       | ThrownError message =>
           throw (ThrownApi {| PrivacyApiError.message := Js.Exact message;
                               PrivacyApiError.status := None;
                               PrivacyApiError.details := None |})
       | ThrownValue =>
           throw (ThrownApi {| PrivacyApiError.message := Js.Exact "Network error occurred";
                               PrivacyApiError.status := None;
                               PrivacyApiError.details := None |})
       end).

Definition no_options : RequestInit := {| method := None; headers := None; body := None |}.

Definition getHealth (this : PrivacyApiClient) : Async Js.Value :=
  makeRequest this "/" no_options.

Definition getCategories (this : PrivacyApiClient) : Async Js.Value :=
  makeRequest this "/categories" no_options.

Definition predictPrivacy (this : PrivacyApiClient) (appData : AppData.t) : Async Js.Value :=
  makeRequest this "/predict"
    {| method := Some "POST"; headers := None; body := Some appData |}.

Definition getDemoPredict (this : PrivacyApiClient) : Async Js.Value :=
  makeRequest this "/predict/demo" no_options.

Definition privacyApi : PrivacyApiClient := {| baseUrl := API_BASE_URL |}.

(* ===================================================================== *)
(** ** Request hooks ([use-privacy-api-simple])                            *)
(* ===================================================================== *)

Definition checkHealth : Async unit :=
  setLoading true;;
  setError None;;
  try_finally
    (try_catch
       (result ← getHealth privacyApi;
        setData (Some result))
       (fun err => setError (Some err)))
    (setLoading false).

Definition fetchCategories : Async unit :=
  setLoading true;;
  setError None;;
  try_finally
    (try_catch
       (result ← getCategories privacyApi;
        setData (Some result))
       (fun err => setError (Some err)))
    (setLoading false).

Definition predict (appData : AppData.t) : Async Js.Value :=
  setLoading true;;
  setError None;;
  setData None;;
  try_finally
    (try_catch
       (result ← predictPrivacy privacyApi appData;
        setData (Some result);;
        mret result)
       (fun err =>
          setError (Some err);;
          throw err))
    (setLoading false).

Definition getDemoPredict_hook : Async Js.Value :=
  setLoading true;;
  setError None;;
  try_finally
    (try_catch
       (result ← getDemoPredict privacyApi;
        setData (Some result);;
        mret result)
       (fun err =>
          setError (Some err);;
          throw err))
    (setLoading false).

End Client.

(** *** The lifecycle of one trigger, for stating properties

    [pending clears s] are the slots rendered while the call is
    outstanding and [settled clears s r] the slots once it settled to [r],
    for a trigger started from the slots [s] that clears the stored result
    first ([clears = true]) or leaves it alone ([clears = false]). *)
Definition pending (clears : bool) (s : Hook.State) : Hook.State :=
  {| Hook.data := if clears then None else Hook.data s;
     Hook.loading := true; Hook.error := None |}.

Definition settled (clears : bool) (s : Hook.State) (r : Thrown + Js.Value) : Hook.State :=
  match r with
  | inr result =>
      {| Hook.data := Some result; Hook.loading := false; Hook.error := None |}
  | inl err =>
      {| Hook.data := if clears then None else Hook.data s;
         Hook.loading := false; Hook.error := Some err |}
  end.

(* ===================================================================== *)
(** ** The form hook ([useAppForm])                                        *)
(* ===================================================================== *)

Module AppForm.

(** A well-typed [(field, value)] pair, as [updateField] receives it. *)
Inductive FieldUpdate : Type :=
| SetText (f : TextField) (v : string)
| SetFlag (f : FlagField) (v : bool)
| SetPerm (f : PermField) (v : Z).

Definition update_name (u : FieldUpdate) : string :=
  match u with
  | SetText f _ => text_name f
  | SetFlag f _ => flag_name f
  | SetPerm f _ => perm_name f
  end.

(** [{ ...prev, [field]: value }] *)
Definition apply_update (prev : AppData.t) (u : FieldUpdate) : AppData.t :=
  match u with
  | SetText f v => AppData.set_text f v prev
  | SetFlag f v => AppData.set_flag f v prev
  | SetPerm f v => AppData.set_perm f v prev
  end.

(** [{ ...prev, ...updates }] for a [Partial<AppData>] given by its
    bindings. *)
Definition spread (prev : AppData.t) (updates : list FieldUpdate) : AppData.t :=
  fold_left apply_update updates prev.

Definition defaults : AppData.t :=
  {| AppData.app_name := ""; AppData.category := "";
     AppData.free := true; AppData.has_ads := false; AppData.has_iap := false;
     AppData.is_game := false; AppData.is_social := false;
     AppData.perm_location := 0; AppData.perm_camera := 0;
     AppData.perm_microphone := 0; AppData.perm_contacts := 0;
     AppData.perm_phone := 0; AppData.perm_sms := 0;
     AppData.perm_storage := 0; AppData.perm_calendar := 0;
     AppData.perm_network := 1; AppData.perm_device_info := 0;
     AppData.perm_accounts := 0; AppData.perm_system := 0;
     AppData.perm_other := 0 |}.

Record State : Type := mk {
  formData : AppData.t;
  errors : gmap string string
}.

Definition useAppForm (initialData : list FieldUpdate) : State :=
  {| formData := spread defaults initialData; errors := ∅ |}.

Definition object_keys (o : gmap string string) : list string :=
  (map_to_list o).*1.

(** [errors[field]] as a condition. *)
Definition has_error (errors : gmap string string) (field : string) : bool :=
  match errors !! field with
  | Some msg => Js.truthy (Js.Str msg)
  | None => false
  end.

(** [updateField] as a render builds it: [useCallback(..., [errors])]
    captures the errors map of that render, [rendered], and the test
    [if (errors[field])] reads the captured map; the two setters update
    the latest state [s]. *)
Definition updateField_in (rendered : gmap string string)
    (u : FieldUpdate) (s : State) : State :=
  {| formData := apply_update (formData s) u;
     errors := if has_error rendered (update_name u)
               then delete (update_name u) (errors s)
               else errors s |}.

(** The call on the state as rendered (nothing was set earlier in the same
    handler): the captured map is the state's own. *)
Definition updateField (u : FieldUpdate) (s : State) : State :=
  updateField_in (errors s) u s.

Definition updateMultipleFields (updates : list FieldUpdate) (s : State) : State :=
  {| formData := spread (formData s) updates; errors := errors s |}.

Definition permissionFields : list PermField :=
  [ K_perm_location; K_perm_contacts; K_perm_phone; K_perm_sms;
    K_perm_storage; K_perm_calendar; K_perm_network; K_perm_device_info;
    K_perm_system ].

Definition binaryFields : list PermField :=
  [ K_perm_camera; K_perm_microphone; K_perm_accounts ].

(** One [forEach] pass of [validateForm] over [fields], with upper bound
    [hi] and message [msg]. *)
Definition check_range (formData : AppData.t) (hi : Z) (msg : string)
    (fields : list PermField) (newErrors : gmap string string) : gmap string string :=
  fold_left
    (fun acc field =>
       let value := AppData.perm formData field in
       if (value <? 0)%Z || (value >? hi)%Z
       then <[perm_name field := msg]> acc
       else acc)
    fields newErrors.

(** The permission ranges of the data model: [0,10] for the nine general
    counters, [0,5] for camera, microphone and accounts, [0,50] for
    [perm_other]. *)
Definition ranges_ok (d : AppData.t) : Prop :=
  Forall (fun f => (0 <= AppData.perm d f <= 10)%Z) permissionFields
  /\ Forall (fun f => (0 <= AppData.perm d f <= 5)%Z) binaryFields
  /\ (0 <= AppData.perm_other d <= 50)%Z.

Definition validateForm (s : State) : bool * State :=
  let formData := formData s in
  let newErrors : gmap string string := ∅ in
  let newErrors :=
    if negb (Js.truthy (Js.Str (Js.trim (AppData.app_name formData))))
    then <["app_name" := "App name is required"]> newErrors
    else newErrors in
  let newErrors :=
    if negb (Js.truthy (Js.Str (AppData.category formData)))
    then <["category" := "App category is required"]> newErrors
    else newErrors in
  let newErrors :=
    check_range formData 10 "Value must be between 0 and 10" permissionFields newErrors in
  let newErrors :=
    check_range formData 5 "Value must be between 0 and 5" binaryFields newErrors in
  let newErrors :=
    if (AppData.perm_other formData <? 0)%Z || (AppData.perm_other formData >? 50)%Z
    then <["perm_other" := "Value must be between 0 and 50"]> newErrors
    else newErrors in
  (Nat.eqb (length (object_keys newErrors)) 0,
   {| formData := formData; errors := newErrors |}).

Definition resetForm (initialData : list FieldUpdate) (s : State) : State :=
  {| formData := spread defaults initialData; errors := ∅ |}.

Definition all_perm_fields : list PermField :=
  [ K_perm_location; K_perm_camera; K_perm_microphone; K_perm_contacts;
    K_perm_phone; K_perm_sms; K_perm_storage; K_perm_calendar;
    K_perm_network; K_perm_device_info; K_perm_accounts; K_perm_system;
    K_perm_other ].

(** Sum over the entries whose key starts with [perm_]. *)
Definition totalPermissions (s : State) : Z :=
  fold_left (fun sum f => (sum + AppData.perm (formData s) f)%Z) all_perm_fields 0%Z.

Definition hasHighRiskPermissions (s : State) : bool :=
  (AppData.perm_location (formData s) >? 0)%Z
  || (AppData.perm_contacts (formData s) >? 0)%Z
  || (AppData.perm_phone (formData s) >? 0)%Z
  || (AppData.perm_microphone (formData s) >? 0)%Z
  || (AppData.perm_camera (formData s) >? 0)%Z.

(** [Object.keys(errors).length === 0 && formData.app_name.trim()
     && formData.category]: the value, not a boolean. *)
Definition isValid (s : State) : Js.Value :=
  Js.and
    (Js.and (Js.Bool (Nat.eqb (length (object_keys (errors s))) 0))
            (Js.Str (Js.trim (AppData.app_name (formData s)))))
    (Js.Str (AppData.category (formData s))).

End AppForm.

(* ===================================================================== *)
(** ** The history hook ([usePredictionHistory])                           *)
(* ===================================================================== *)

Module History.

Definition initial : list PredictionResult.t := [].

(** [[prediction, ...prev.slice(0, 9)]] *)
Definition addPrediction (prediction : PredictionResult.t)
    (prev : list PredictionResult.t) : list PredictionResult.t :=
  prediction :: take 9 prev.

Definition clearHistory (prev : list PredictionResult.t) : list PredictionResult.t := [].

Definition removePrediction (timestamp : string)
    (prev : list PredictionResult.t) : list PredictionResult.t :=
  List.filter (fun p => negb (String.eqb (PredictionResult.timestamp p) timestamp)) prev.

(** The calls a component can make on the hook. *)
Inductive Call : Type :=
| AddPrediction (prediction : PredictionResult.t)
| ClearHistory
| RemovePrediction (timestamp : string).

Definition step (predictions : list PredictionResult.t) (c : Call) : list PredictionResult.t :=
  match c with
  | AddPrediction p => addPrediction p predictions
  | ClearHistory => clearHistory predictions
  | RemovePrediction ts => removePrediction ts predictions
  end.

Definition run (calls : list Call) : list PredictionResult.t :=
  fold_left step calls initial.

End History.

(* ===================================================================== *)
(** ** Simple Privacy Checker ([About.tsx], second component)              *)
(* ===================================================================== *)

Module SimplePrivacyChecker.

(** The component's own slot and the slots of its [usePrivacyPrediction]. *)
Record State : Type := mk {
  appInput : string;
  hook : Hook.State
}.

Definition initial : State := {| appInput := ""; hook := Hook.initial |}.

Definition basicAppData (appInput : string) : AppData.t :=
  {| AppData.app_name := Js.trim appInput; AppData.category := "Social";
     AppData.free := true; AppData.has_ads := false; AppData.has_iap := false;
     AppData.is_game := false; AppData.is_social := false;
     AppData.perm_location := 0; AppData.perm_camera := 0;
     AppData.perm_microphone := 0; AppData.perm_contacts := 0;
     AppData.perm_phone := 0; AppData.perm_sms := 0;
     AppData.perm_storage := 0; AppData.perm_calendar := 0;
     AppData.perm_network := 1; AppData.perm_device_info := 0;
     AppData.perm_accounts := 0; AppData.perm_system := 0;
     AppData.perm_other := 0 |}.

Definition handleSearch (fetch : Request -> Thrown + Response.t)
    (appInput : string) : Async unit :=
  if negb (Js.truthy (Js.Str (Js.trim appInput))) then mret tt
  else
    try_catch
      (predict fetch (basicAppData appInput);; mret tt)
      (fun err => emit (ConsoleError "Prediction failed:" err)).

Definition handleKeyPress (fetch : Request -> Thrown + Response.t)
    (key : string) (appInput : string) : Async unit :=
  if String.eqb key "Enter" then handleSearch fetch appInput else mret tt.

Definition getRiskColor (level : string) : string :=
  if String.eqb level "LOW" then "text-green-600 bg-green-100"
  else if String.eqb level "MEDIUM" then "text-yellow-600 bg-yellow-100"
  else if String.eqb level "HIGH" then "text-orange-600 bg-orange-100"
  else if String.eqb level "CRITICAL" then "text-red-600 bg-red-100"
  else "text-gray-600 bg-gray-100".

(** The glyph component [getRiskIcon] renders and its [className]. *)
Record Icon : Type := mkIcon {
  glyph : string;
  className : string
}.

Definition getRiskIcon (level : string) : Icon :=
  if String.eqb level "LOW" then mkIcon "CheckCircle" "h-5 w-5 text-green-600"
  else if String.eqb level "MEDIUM" then mkIcon "Shield" "h-5 w-5 text-yellow-600"
  else if String.eqb level "HIGH" then mkIcon "AlertTriangle" "h-5 w-5 text-orange-600"
  else if String.eqb level "CRITICAL" then mkIcon "XCircle" "h-5 w-5 text-red-600"
  else mkIcon "Shield" "h-5 w-5 text-gray-600".

(** Event handlers, as transitions of the component. *)

(** [onChange] of the input. *)
Definition type_input (text : string) (st : State) : State :=
  {| appInput := text; hook := hook st |}.

(** [onClick] of "Check Privacy Score". *)
Definition click_check (fetch : Request -> Thrown + Response.t)
    (st : State) : State * list Event :=
  let '(_, w) := handleSearch fetch (appInput st) {| slots := hook st; log := [] |} in
  ({| appInput := appInput st; hook := slots w |}, log w).

(** [onClick] of "Check Another App": [() => setAppInput('')]. *)
Definition click_check_another (st : State) : State :=
  {| appInput := ""; hook := hook st |}.

(** What the render shows: the result block under [prediction && ...], the
    instructions under [!prediction && !loading && !error].  The result
    block goes on to read the fields of a [PredictionResult]
    ([key_risk_factors.length], [recommendations.length], ...), so
    [result_shown] speaks of a stored value of that shape. *)
Definition result_shown (st : State) : bool :=
  match Hook.data (hook st) with
  | Some v => Js.truthy v
  | None => false
  end.

Definition instructions_shown (st : State) : bool :=
  negb (result_shown st)
  && negb (Hook.loading (hook st))
  && negb (bool_decide (is_Some (Hook.error (hook st)))).

(** [disabled={loading || !appInput.trim()}] on the button. *)
Definition button_disabled (st : State) : bool :=
  Hook.loading (hook st) || negb (Js.truthy (Js.Str (Js.trim (appInput st)))).

(** [onKeyPress] of the input. *)
Definition press_key (fetch : Request -> Thrown + Response.t)
    (key : string) (st : State) : State * list Event :=
  let '(_, w) := handleKeyPress fetch key (appInput st) {| slots := hook st; log := [] |} in
  ({| appInput := appInput st; hook := slots w |}, log w).

End SimplePrivacyChecker.

(* ===================================================================== *)
(** ** Permissions Checker page                                            *)
(* ===================================================================== *)

Module PermissionsChecker.

(** [icon] is the name of the glyph component. *)
Record Permission : Type := mkPermission {
  key : string;
  name : string;
  description : string;
  icon : string;
  enabled : bool
}.

(** The page's slots.  The twelve permission objects live in [objects];
    the [permissions] array holds references (indices) into it, so that a
    copied array still points at the same objects. *)
Record State : Type := mk {
  appName : string;
  category : string;
  hasAds : bool;
  hasIAP : bool;
  isFree : bool;
  isGame : bool;
  isSocial : bool;
  objects : list Permission;
  permissions : list nat
}.

Definition seed : list Permission :=
  [ mkPermission "perm_location" "Location Access" "Access to GPS location and location history" "MapPin" false;
    mkPermission "perm_camera" "Camera Access" "Take pictures and record videos" "Camera" false;
    mkPermission "perm_microphone" "Microphone Access" "Record audio and voice commands" "Mic" false;
    mkPermission "perm_contacts" "Contacts Access" "Read and modify your contacts" "Users" false;
    mkPermission "perm_phone" "Phone Access" "Make and manage phone calls" "Phone" false;
    mkPermission "perm_sms" "SMS Access" "Send and receive text messages" "MessageSquare" false;
    mkPermission "perm_storage" "Storage Access" "Read and write to device storage" "HardDrive" false;
    mkPermission "perm_calendar" "Calendar Access" "Read and modify calendar events" "Calendar" false;
    mkPermission "perm_network" "Network Access" "Access internet and network state" "Wifi" true;
    mkPermission "perm_device_info" "Device Info" "Read device ID and hardware info" "Smartphone" false;
    mkPermission "perm_accounts" "Account Access" "Access account information" "Users" false;
    mkPermission "perm_system" "System Access" "Modify system settings" "Settings" false ].

Definition initial : State :=
  {| appName := ""; category := "Social";
     hasAds := false; hasIAP := false; isFree := true;
     isGame := false; isSocial := false;
     objects := seed; permissions := seq 0 (length seed) |}.

Definition flip (p : Permission) : Permission :=
  {| key := key p; name := name p; description := description p;
     icon := icon p; enabled := negb (enabled p) |}.

(** The array as the render reads it: each reference followed. *)
Definition entries (st : State) : list Permission :=
  omap (fun r => objects st !! r) (permissions st).

(** [newPermissions = [...permissions]] copies the references;
    [newPermissions[index].enabled = !newPermissions[index].enabled]
    writes through the reference (a TypeError when [index] is outside the
    array); [setPermissions(newPermissions)]. *)
Definition togglePermission (index : nat) (st : State) : Thrown + State :=
  let newPermissions := permissions st in
  match newPermissions !! index with
  | None => inl (ThrownError "Cannot read properties of undefined (reading 'enabled')")
  | Some r =>
      inr {| appName := appName st; category := category st;
             hasAds := hasAds st; hasIAP := hasIAP st; isFree := isFree st;
             isGame := isGame st; isSocial := isSocial st;
             objects := alter flip r (objects st);
             permissions := newPermissions |}
  end.

(** [permissions.find(p => p.key === k)?.enabled ? 1 : 0] *)
Definition switch (st : State) (k : string) : Z :=
  match List.find (fun p => String.eqb (key p) k) (entries st) with
  | Some p => if enabled p then 1 else 0
  | None => 0
  end.

Definition appData (st : State) : AppData.t :=
  {| AppData.app_name := appName st; AppData.category := category st;
     AppData.free := isFree st; AppData.has_ads := hasAds st;
     AppData.has_iap := hasIAP st; AppData.is_game := isGame st;
     AppData.is_social := isSocial st;
     AppData.perm_location := switch st "perm_location";
     AppData.perm_camera := switch st "perm_camera";
     AppData.perm_microphone := switch st "perm_microphone";
     AppData.perm_contacts := switch st "perm_contacts";
     AppData.perm_phone := switch st "perm_phone";
     AppData.perm_sms := switch st "perm_sms";
     AppData.perm_storage := switch st "perm_storage";
     AppData.perm_calendar := switch st "perm_calendar";
     AppData.perm_network := switch st "perm_network";
     AppData.perm_device_info := switch st "perm_device_info";
     AppData.perm_accounts := switch st "perm_accounts";
     AppData.perm_system := switch st "perm_system";
     AppData.perm_other := 0 |}.

Definition handleCalculateRisk (fetch : Request -> Thrown + Response.t)
    (st : State) : Async unit :=
  if negb (Js.truthy (Js.Str (Js.trim (appName st)))) then
    emit (Alerted "Please enter an app name")
  else
    try_catch
      (predict fetch (appData st);; mret tt)
      (fun err => emit (ConsoleError "Prediction failed:" err)).

Definition getRiskColor (level : string) : string :=
  if String.eqb level "LOW" then "text-green-600 bg-green-100"
  else if String.eqb level "MEDIUM" then "text-yellow-600 bg-yellow-100"
  else if String.eqb level "HIGH" then "text-orange-600 bg-orange-100"
  else if String.eqb level "CRITICAL" then "text-red-600 bg-red-100"
  else "text-gray-600 bg-gray-100".

Definition getRiskIcon (level : string) : SimplePrivacyChecker.Icon :=
  if String.eqb level "LOW"
  then SimplePrivacyChecker.mkIcon "CheckCircle" "h-6 w-6 text-green-600"
  else if String.eqb level "MEDIUM"
  then SimplePrivacyChecker.mkIcon "Shield" "h-6 w-6 text-yellow-600"
  else if String.eqb level "HIGH"
  then SimplePrivacyChecker.mkIcon "AlertTriangle" "h-6 w-6 text-orange-600"
  else if String.eqb level "CRITICAL"
  then SimplePrivacyChecker.mkIcon "XCircle" "h-6 w-6 text-red-600"
  else SimplePrivacyChecker.mkIcon "Shield" "h-6 w-6 text-gray-600".

(** [disabled={loading || !appName.trim()}] on the submit button, for the
    [loading] slot of the page's prediction hook. *)
Definition button_disabled (loading : bool) (st : State) : bool :=
  loading || negb (Js.truthy (Js.Str (Js.trim (appName st)))).

(** What holds of [initial] and is kept by [togglePermission]: no two
    array slots share an object, no reference dangles, and the entries
    carry the seeded keys in the seeded order. *)
Definition well_formed (st : State) : Prop :=
  NoDup (permissions st)
  /\ Forall (fun r => r < length (objects st)) (permissions st)
  /\ map key (entries st) = map key seed.

End PermissionsChecker.

(* ===================================================================== *)
(** ** Example Score Showcase ([ExampleScore])                             *)
(* ===================================================================== *)

Module ExampleScore.

Definition score : Q := 68.

Definition getScoreColor (score : Q) : string :=
  if Qle_bool 80 score then "text-green-500"
  else if Qle_bool 60 score then "text-accent"
  else "text-destructive".

Definition getScoreLabel (score : Q) : string :=
  if Qle_bool 80 score then "Excellent Privacy"
  else if Qle_bool 60 score then "Good Privacy"
  else "Privacy Concerns".

Definition getRiskColor (risk : string) : string :=
  if String.eqb risk "high" then "destructive"
  else if String.eqb risk "medium" then "default"
  else "secondary".

End ExampleScore.

(* ===================================================================== *)
(** ** Hero section, interactive variant ([Hero])                          *)
(* ===================================================================== *)

Module Hero.

(** [result] is [null] or whatever [setResult] was last given. *)
Record State : Type := mk {
  appInput : string;
  isLoading : bool;
  result : Js.Value
}.

Definition initial : State :=
  {| appInput := ""; isLoading := false; result := Js.Null |}.

(** The one request the section makes; [app_name] is the only member of
    the serialised body. *)
Record SimpleRequest : Type := mkSimpleRequest {
  url : string;
  method : string;
  headers : list (string * string);
  app_name : string
}.

Inductive Effect : Type :=
| Sent (r : SimpleRequest)      (* fetch(url, init) was called *)
| Shown (st : State).           (* slots rendered while the call is pending *)

Definition failed_message : string := "Failed to check privacy score".

Definition unreachable_message : string :=
  "Unable to connect to privacy service. Please ensure the backend is running.".

(** What the [try] block hands to [setResult], or what it throws. *)
Definition attempt (fetch : SimpleRequest -> Thrown + Response.t)
    (request : SimpleRequest) : Thrown + Js.Value :=
  match fetch request with
  | inl e => inl e
  | inr response =>
      if Response.ok response then
        Response.json response
      else
        match Response.json response with
        | inl e => inl e
        | inr error =>
            match Js.prop error "detail" with
            | None => inl (ThrownError "Cannot read properties of null (reading 'detail')")
            | Some detail =>
                inr (Js.Obj [("error", Js.or detail (Js.Str failed_message))])
            end
        end
  end.

Definition checkPrivacyScore (fetch : SimpleRequest -> Thrown + Response.t)
    (st : State) : State * list Effect :=
  if negb (Js.truthy (Js.Str (Js.trim (appInput st)))) then (st, [])
  else
    let request :=
      {| url := "http://localhost:8003/predict/simple";
         method := "POST";
         headers := [("Content-Type", "application/json")];
         app_name := Js.trim (appInput st) |} in
    let loading := {| appInput := appInput st; isLoading := true; result := Js.Null |} in
    let settled :=
      match attempt fetch request with
      | inr value => value
      | inl _ => Js.Obj [("error", Js.Str unreachable_message)]
      end in
    ({| appInput := appInput st; isLoading := false; result := settled |},
     [Sent request; Shown loading]).

Definition handleKeyPress (fetch : SimpleRequest -> Thrown + Response.t)
    (key : string) (st : State) : State * list Effect :=
  if String.eqb key "Enter" then checkPrivacyScore fetch st else (st, []).



(** [disabled={isLoading || !appInput.trim()}] on the button. *)
Definition button_disabled (st : State) : bool :=
  isLoading st || negb (Js.truthy (Js.Str (Js.trim (appInput st)))).

End Hero.

(* ===================================================================== *)
(** * Properties                                                           *)
(* ===================================================================== *)

(** ** Trimming *)

Section TrimFacts.

Import Js.

Lemma leading_nil pats : Forall (fun pat => pat <> []) pats -> leading pats [] = 0.
Proof.
  induction 1 as [| pat pats Hpat _ IH]; [reflexivity |].
  destruct pat; [congruence | exact IH].
Qed.

(** The fuel [trimStart] and [trimEnd] give [strip] is enough: what comes
    back starts with no white-space character. *)
Lemma strip_exhausts pats fuel l :
  Forall (fun pat => pat <> []) pats ->
  length l <= fuel ->
  leading pats (strip pats fuel l) = 0.
Proof.
  intros Hpats. revert l.
  induction fuel as [| fuel IH]; intros l Hl.
  - destruct l; [apply leading_nil, Hpats | cbn in Hl; lia].
  - cbn [strip]. destruct (leading pats l) as [| k] eqn:Hk; [exact Hk |].
    apply IH. rewrite length_drop. lia.
Qed.

Lemma trimStart_done l : leading white_space (trimStart l) = 0.
Proof.
  apply strip_exhausts; [| reflexivity].
  unfold white_space. repeat constructor; discriminate.
Qed.

Example trim_inner_space_kept : trim "  Face book  " = "Face book".
Proof. vm_compute. reflexivity. Qed.

Example trim_line_breaks :
  trim (String "009" (String "010" (String "013" " "))) = "".
Proof. vm_compute. reflexivity. Qed.

Example trim_no_break_space :
  trim (String "194" (String "160" "x")) = "x".
Proof. vm_compute. reflexivity. Qed.

Example to_string_validation_errors :
  to_text (Arr [Obj [("msg", Str "field required")]; Obj [("msg", Str "too long")]])
  = Exact "[object Object],[object Object]".
Proof. reflexivity. Qed.

Example to_string_mixed_array :
  to_text (Arr [Num 404; Null; Str "a"; Arr [Bool true; Num (-3)]]) = Exact "404,,a,true,-3".
Proof. vm_compute. reflexivity. Qed.

Example to_string_fraction : to_text (Num (1 # 2)) = StringOf (Num (1 # 2)).
Proof. vm_compute. reflexivity. Qed.

End TrimFacts.

(** ** The client's request routine *)

(** Unfolds the monadic plumbing of an [Async] computation. *)
Ltac async_unfold :=
  cbv beta iota zeta delta
    [mbind mret Async_bind Async_ret try_catch try_finally throw await
     await_fetch get emit setData setLoading setError].

Section ClientFacts.

Variable fetch : Request -> Thrown + Response.t.


(** Whatever the network does, [makeRequest] either returns a value or
    throws a [PrivacyApiError]; it touches no state slot and leaves one
    request and one pending frame in the log. *)
Lemma makeRequest_run (this : PrivacyApiClient) endpoint options w :
  exists r,
    makeRequest fetch this endpoint options w
    = (r, {| slots := slots w;
             log := log w ++ [Fetched {| url := baseUrl this +:+ endpoint;
                                         init := request_init options |};
                              Rendered (slots w)] |})
    /\ match r with
       | inr _ | inl (ThrownApi _) => True
       | inl _ => False
       end.
Proof.
  unfold makeRequest. async_unfold.
  destruct (fetch _) as [[e | m |] | response]; cbn; try (eexists; split; [reflexivity | exact I]).
  destruct (Response.ok response); cbn.
  - destruct (Response.json response) as [[e | m |] | v]; cbn;
      eexists; (split; [reflexivity | exact I]).
  - destruct (Response.json response) as [e | parsed]; cbn.
    + eexists; split; [reflexivity | exact I].
    + destruct (Js.prop parsed "detail") as [detail |]; cbn;
        [| eexists; split; [reflexivity | exact I] ].
      destruct (Js.truthy detail); cbn; [eexists; split; [reflexivity | exact I] |].
      destruct (Js.prop parsed "message"); cbn; eexists; (split; [reflexivity | exact I]).
Qed.

End ClientFacts.

(** ** The request hooks *)

Section HookFacts.

Variable fetch : Request -> Thrown + Response.t.

Lemma predict_run s evs appData :
  let call := predictPrivacy fetch privacyApi appData
                {| slots := pending true s; log := evs |} in
  predict fetch appData {| slots := s; log := evs |}
  = (fst call, {| slots := settled true s (fst call); log := log (snd call) |}).
Proof.
  unfold predict, predictPrivacy, pending.
  destruct (makeRequest_run fetch privacyApi "/predict"
              {| method := Some "POST"; headers := None; body := Some appData |}
              {| slots := {| Hook.data := None; Hook.loading := true; Hook.error := None |};
                 log := evs |}) as (r & Hrun & _).
  async_unfold. cbn. cbn in Hrun. rewrite Hrun.
  destruct r; reflexivity.
Qed.

Lemma getDemoPredict_run s evs :
  let call := getDemoPredict fetch privacyApi {| slots := pending false s; log := evs |} in
  getDemoPredict_hook fetch {| slots := s; log := evs |}
  = (fst call, {| slots := settled false s (fst call); log := log (snd call) |}).
Proof.
  unfold getDemoPredict_hook, getDemoPredict, pending.
  destruct (makeRequest_run fetch privacyApi "/predict/demo" no_options
              {| slots := {| Hook.data := Hook.data s; Hook.loading := true;
                             Hook.error := None |};
                 log := evs |}) as (r & Hrun & _).
  async_unfold. cbn. cbn in Hrun. rewrite Hrun.
  destruct r; reflexivity.
Qed.

Lemma checkHealth_run s evs :
  let call := getHealth fetch privacyApi {| slots := pending false s; log := evs |} in
  checkHealth fetch {| slots := s; log := evs |}
  = (inr tt, {| slots := settled false s (fst call); log := log (snd call) |}).
Proof.
  unfold checkHealth, getHealth, pending.
  destruct (makeRequest_run fetch privacyApi "/" no_options
              {| slots := {| Hook.data := Hook.data s; Hook.loading := true;
                             Hook.error := None |};
                 log := evs |}) as (r & Hrun & _).
  async_unfold. cbn. cbn in Hrun. rewrite Hrun.
  destruct r; reflexivity.
Qed.

Lemma fetchCategories_run s evs :
  let call := getCategories fetch privacyApi {| slots := pending false s; log := evs |} in
  fetchCategories fetch {| slots := s; log := evs |}
  = (inr tt, {| slots := settled false s (fst call); log := log (snd call) |}).
Proof.
  unfold fetchCategories, getCategories, pending.
  destruct (makeRequest_run fetch privacyApi "/categories" no_options
              {| slots := {| Hook.data := Hook.data s; Hook.loading := true;
                             Hook.error := None |};
                 log := evs |}) as (r & Hrun & _).
  async_unfold. cbn. cbn in Hrun. rewrite Hrun.
  destruct r; reflexivity.
Qed.

(** What the client puts in the log, per operation. *)
Lemma client_log endpoint options w :
  snd (makeRequest fetch privacyApi endpoint options w)
  = {| slots := slots w;
       log := log w ++ [Fetched {| url := API_BASE_URL +:+ endpoint;
                                   init := request_init options |};
                        Rendered (slots w)] |}.
Proof.
  destruct (makeRequest_run fetch privacyApi endpoint options w) as (r & Hrun & _).
  rewrite Hrun. reflexivity.
Qed.

End HookFacts.

(** ** The form hook *)

Section FormFacts.

Import AppForm.

Lemma no_keys_iff (o : gmap string string) :
  Nat.eqb (length (object_keys o)) 0 = true <-> o = ∅.
Proof.
  unfold object_keys. rewrite Nat.eqb_eq, length_fmap.
  rewrite <- map_to_list_empty_iff.
  destruct (map_to_list o); cbn; split; congruence.
Qed.

Lemma no_keys_empty : Nat.eqb (length (object_keys ∅)) 0 = true.
Proof. apply no_keys_iff. reflexivity. Qed.

Lemma some_keys_insert (o : gmap string string) k msg :
  Nat.eqb (length (object_keys (<[k := msg]> o))) 0 = false.
Proof.
  apply not_true_is_false. rewrite no_keys_iff. apply insert_non_empty.
Qed.

Lemma truthy_Str (s : string) : Js.truthy (Js.Str s) = true <-> s <> "".
Proof.
  cbn. rewrite negb_true_iff. apply String.eqb_neq.
Qed.

Lemma perm_set_perm_eq f v d : AppData.perm (AppData.set_perm f v d) f = v.
Proof. destruct f; reflexivity. Qed.

Lemma perm_set_perm_ne f g v d :
  f <> g -> AppData.perm (AppData.set_perm f v d) g = AppData.perm d g.
Proof. intros Hne. destruct f, g; try reflexivity; congruence. Qed.

Lemma perm_name_inj f g : perm_name f = perm_name g -> f = g.
Proof. destruct f, g; cbn; intros H; try reflexivity; discriminate H. Qed.

(** A pass over fields that are all within [0, hi] records nothing. *)
Lemma check_range_ok d hi msg fields acc :
  Forall (fun f => (0 <= AppData.perm d f <= hi)%Z) fields ->
  check_range d hi msg fields acc = acc.
Proof.
  unfold check_range. intros Hall. revert acc.
  induction Hall as [| f fields Hf _ IH]; intros acc; cbn; [reflexivity |].
  replace (AppData.perm d f <? 0)%Z with false by (symmetry; apply Z.ltb_ge; lia).
  replace (AppData.perm d f >? hi)%Z with false
    by (symmetry; rewrite Z.gtb_ltb; apply Z.ltb_ge; lia).
  cbn. apply IH.
Qed.

(** A pass in which exactly the field [f] is outside [0, hi] records
    exactly the message for [f]. *)
Lemma check_range_single d hi msg fields f acc :
  NoDup fields ->
  f ∈ fields ->
  (forall g, g ∈ fields -> g <> f -> (0 <= AppData.perm d g <= hi)%Z) ->
  ~ (0 <= AppData.perm d f <= hi)%Z ->
  check_range d hi msg fields acc = <[perm_name f := msg]> acc.
Proof.
  intros Hnd Hin Hothers Hout. revert acc.
  induction fields as [| g fields IH]; intros acc.
  - inversion Hin.
  - apply NoDup_cons in Hnd as [Hg Hnd].
    change (check_range d hi msg (g :: fields) acc)
      with (check_range d hi msg fields
              (if (AppData.perm d g <? 0)%Z || (AppData.perm d g >? hi)%Z
               then <[perm_name g := msg]> acc else acc)).
    destruct (decide (g = f)) as [-> | Hne].
    + replace ((AppData.perm d f <? 0)%Z || (AppData.perm d f >? hi)%Z) with true.
      * apply check_range_ok. apply Forall_forall. intros h Hh.
        apply Hothers; [right; exact Hh | intros ->; contradiction].
      * symmetry. apply orb_true_iff. rewrite Z.ltb_lt, Z.gtb_ltb, Z.ltb_lt. lia.
    + assert (0 <= AppData.perm d g <= hi)%Z as Hg_ok by (apply Hothers; [left | exact Hne]).
      replace (AppData.perm d g <? 0)%Z with false by (symmetry; apply Z.ltb_ge; lia).
      replace (AppData.perm d g >? hi)%Z with false
        by (symmetry; rewrite Z.gtb_ltb; apply Z.ltb_ge; lia).
      cbn. apply IH; [exact Hnd | | ].
      * apply elem_of_cons in Hin as [-> | Hin]; [congruence | exact Hin].
      * intros h Hh. apply Hothers. right; exact Hh.
Qed.

Lemma NoDup_permissionFields : NoDup permissionFields.
Proof. apply (bool_decide_unpack _). vm_compute. exact I. Qed.

Lemma NoDup_binaryFields : NoDup binaryFields.
Proof. apply (bool_decide_unpack _). vm_compute. exact I. Qed.

(** [validateForm] in terms of its passes, with the two text checks
    already decided. *)
Lemma validateForm_named s :
  Js.trim (AppData.app_name (formData s)) <> "" ->
  AppData.category (formData s) <> "" ->
  validateForm s
  = let newErrors :=
      check_range (formData s) 5 "Value must be between 0 and 5" binaryFields
        (check_range (formData s) 10 "Value must be between 0 and 10" permissionFields ∅) in
    let newErrors :=
      if (AppData.perm_other (formData s) <? 0)%Z || (AppData.perm_other (formData s) >? 50)%Z
      then <["perm_other" := "Value must be between 0 and 50"]> newErrors
      else newErrors in
    (Nat.eqb (length (object_keys newErrors)) 0,
     {| formData := formData s; errors := newErrors |}).
Proof.
  intros Hname Hcat. unfold validateForm.
  apply truthy_Str in Hname. apply truthy_Str in Hcat.
  rewrite Hname, Hcat. reflexivity.
Qed.

End FormFacts.

Section FormFacts2.

Import AppForm.

Lemma check_range_nonempty d hi msg fields (acc : gmap string string) :
  acc <> ∅ -> check_range d hi msg fields acc <> ∅.
Proof.
  unfold check_range. revert acc.
  induction fields as [| f fields IH]; intros acc Hacc; cbn; [exact Hacc |].
  apply IH. destruct (_ || _); [apply insert_non_empty | exact Hacc].
Qed.

(** A run of [validateForm] that answers [true] found both texts
    non-empty and stored an empty map. *)
Lemma validateForm_true s :
  fst (validateForm s) = true ->
  Js.trim (AppData.app_name (formData s)) <> ""
  /\ AppData.category (formData s) <> ""
  /\ errors (snd (validateForm s)) = ∅.
Proof.
  unfold validateForm. cbn [fst snd errors]. intros H. apply no_keys_iff in H.
  assert (forall (o : gmap string string) (c : bool) k m,
             (if c then <[k := m]> o else o) = ∅ -> c = false /\ o = ∅) as Hif.
  { intros o [] k m Ho; [destruct (insert_non_empty _ _ _ Ho) | auto]. }
  pose proof H as Hstored. apply Hif in H as [_ H].
  destruct (decide (check_range (formData s) 10 "Value must be between 0 and 10"
                      permissionFields
                      (if negb (Js.truthy (Js.Str (AppData.category (formData s))))
                       then <["category" := "App category is required"]>
                              (if negb (Js.truthy (Js.Str (Js.trim (AppData.app_name (formData s)))))
                               then <["app_name" := "App name is required"]> ∅ else ∅)
                       else (if negb (Js.truthy (Js.Str (Js.trim (AppData.app_name (formData s)))))
                             then <["app_name" := "App name is required"]> ∅ else ∅)) = ∅))
    as [H10 | H10]; [| destruct (check_range_nonempty _ _ _ _ _ H10 H)].
  destruct (Js.truthy (Js.Str (AppData.category (formData s)))) eqn:Hcat; cbn [negb] in *.
  - destruct (Js.truthy (Js.Str (Js.trim (AppData.app_name (formData s))))) eqn:Hname;
      cbn [negb] in *.
    + apply truthy_Str in Hcat. apply truthy_Str in Hname. auto.
    + exfalso. revert H10. apply check_range_nonempty, insert_non_empty.
  - exfalso. revert H10. apply check_range_nonempty, insert_non_empty.
Qed.

Lemma isValid_truthy s :
  errors s = ∅ ->
  Js.trim (AppData.app_name (formData s)) <> "" ->
  AppData.category (formData s) <> "" ->
  isValid s = Js.Str (AppData.category (formData s))
  /\ Js.truthy (isValid s) = true.
Proof.
  intros He Hname Hcat. unfold isValid. rewrite He, no_keys_empty.
  apply truthy_Str in Hname. apply truthy_Str in Hcat.
  unfold Js.and. cbn [Js.truthy] in *. rewrite Hname. cbn. rewrite Hcat. auto.
Qed.

End FormFacts2.

Section FormFacts3.

Import AppForm.

Local Ltac list_cases H := rewrite ?elem_of_cons, ?elem_of_nil in H.

Lemma general_field_apart f :
  f ∈ permissionFields -> (f ∉ binaryFields) /\ f <> K_perm_other.
Proof.
  intros H. unfold permissionFields, binaryFields in *. list_cases H. split.
  - intros H'. list_cases H'. destruct f; intuition discriminate.
  - intros ->. intuition discriminate.
Qed.

Lemma binary_field_apart f :
  f ∈ binaryFields -> (f ∉ permissionFields) /\ f <> K_perm_other.
Proof.
  intros H. unfold permissionFields, binaryFields in *. list_cases H. split.
  - intros H'. list_cases H'. destruct f; intuition discriminate.
  - intros ->. intuition discriminate.
Qed.

Lemma other_field_apart :
  (K_perm_other ∉ permissionFields) /\ (K_perm_other ∉ binaryFields).
Proof.
  unfold permissionFields, binaryFields.
  split; intros H; list_cases H; intuition discriminate.
Qed.

(** Setting a field outside [fields] does not disturb a pass over
    [fields]. *)
Lemma check_range_set_other d hi msg fields f v acc :
  f ∉ fields ->
  Forall (fun g => (0 <= AppData.perm d g <= hi)%Z) fields ->
  check_range (AppData.set_perm f v d) hi msg fields acc = acc.
Proof.
  intros Hf Hall. apply check_range_ok.
  apply Forall_forall. intros g Hg.
  rewrite perm_set_perm_ne by (intros ->; contradiction).
  rewrite Forall_forall in Hall. apply Hall, Hg.
Qed.

(** Setting a field of [fields] to a value outside [0, hi] makes the pass
    record that field alone. *)
Lemma check_range_set_out d hi msg fields f v acc :
  NoDup fields -> f ∈ fields ->
  Forall (fun g => (0 <= AppData.perm d g <= hi)%Z) fields ->
  ~ (0 <= v <= hi)%Z ->
  check_range (AppData.set_perm f v d) hi msg fields acc = <[perm_name f := msg]> acc.
Proof.
  intros Hnd Hf Hall Hv. apply check_range_single; try assumption.
  - intros g Hg Hne. rewrite perm_set_perm_ne by congruence.
    rewrite Forall_forall in Hall. apply Hall, Hg.
  - rewrite perm_set_perm_eq. exact Hv.
Qed.

(** Setting a field of [fields] to a value inside [0, hi] keeps the pass
    silent. *)
Lemma check_range_set_in d hi msg fields f v acc :
  Forall (fun g => (0 <= AppData.perm d g <= hi)%Z) fields ->
  (0 <= v <= hi)%Z ->
  check_range (AppData.set_perm f v d) hi msg fields acc = acc.
Proof.
  intros Hall Hv. apply check_range_ok. apply Forall_forall. intros g Hg.
  destruct (decide (f = g)) as [-> | Hne].
  - rewrite perm_set_perm_eq. exact Hv.
  - rewrite perm_set_perm_ne by exact Hne.
    rewrite Forall_forall in Hall. apply Hall, Hg.
Qed.

Lemma other_test_false (x : Z) :
  (0 <= x <= 50)%Z -> ((x <? 0)%Z || (x >? 50)%Z) = false.
Proof.
  intros H. apply orb_false_iff. rewrite Z.gtb_ltb, !Z.ltb_ge. lia.
Qed.

End FormFacts3.

(** ** The history hook *)

Section HistoryFacts.

Import History.

Lemma removePrediction_app ts l1 l2 :
  removePrediction ts (l1 ++ l2) = removePrediction ts l1 ++ removePrediction ts l2.
Proof. apply List.filter_app. Qed.

Lemma removePrediction_cons ts p l :
  removePrediction ts (p :: l)
  = if String.eqb (PredictionResult.timestamp p) ts
    then removePrediction ts l
    else p :: removePrediction ts l.
Proof.
  unfold removePrediction. cbn.
  destruct (String.eqb (PredictionResult.timestamp p) ts); reflexivity.
Qed.

Lemma removePrediction_sublist ts l : removePrediction ts l `sublist_of` l.
Proof.
  induction l as [| p l IH]; [constructor |].
  rewrite removePrediction_cons.
  destruct (String.eqb (PredictionResult.timestamp p) ts); constructor; exact IH.
Qed.

(** Entries that all carry another timestamp are all kept. *)
Lemma removePrediction_none ts l :
  Forall (fun q => PredictionResult.timestamp q <> ts) l -> removePrediction ts l = l.
Proof.
  induction 1 as [| p l Hp _ IH]; [reflexivity |].
  rewrite removePrediction_cons, IH.
  apply String.eqb_neq in Hp. rewrite Hp. reflexivity.
Qed.

Lemma step_length h c : length h <= 10 -> length (step h c) <= 10.
Proof.
  intros Hh. destruct c as [p | | ts]; cbn.
  - rewrite length_take. lia.
  - lia.
  - pose proof (sublist_length _ _ (removePrediction_sublist ts h)). lia.
Qed.

Lemma fold_step_length calls h :
  length h <= 10 -> length (fold_left step calls h) <= 10.
Proof.
  revert h. induction calls as [| c calls IH]; intros h Hh; cbn; [exact Hh |].
  apply IH, step_length, Hh.
Qed.

Lemma run_additions ps : run (map AddPrediction ps) = take 10 (rev ps).
Proof.
  unfold run. induction ps as [| p ps IH] using rev_ind; [reflexivity |].
  rewrite map_app, fold_left_app, IH, rev_app_distr. cbn.
  unfold addPrediction. rewrite take_take. reflexivity.
Qed.

End HistoryFacts.

(** ** The Permissions Checker page *)

Section PermissionsFacts.

Import PermissionsChecker.

(** With no dangling reference, slot [j] of the array shows the object
    its reference points at. *)
Lemma entries_lookup (objs : list Permission) (refs : list nat) j :
  Forall (fun r => r < length objs) refs ->
  omap (fun r => objs !! r) refs !! j = refs !! j ≫= (fun r => objs !! r).
Proof.
  intros Hrefs. revert j.
  induction Hrefs as [| r refs Hr _ IH]; intros j; [reflexivity |].
  cbn [omap list_omap].
  destruct (lookup_lt_is_Some_2 objs r Hr) as [p Hp]. rewrite Hp.
  destruct j as [| j]; cbn; [rewrite Hp; reflexivity | apply IH].
Qed.

Lemma well_formed_initial : well_formed initial.
Proof.
  split; [| split].
  - apply NoDup_seq.
  - apply Forall_forall. intros r Hr. apply elem_of_seq in Hr. cbn in *. lia.
  - reflexivity.
Qed.

Lemma map_key_alter_flip (l : list Permission) i :
  map key (alter flip i l) = map key l.
Proof.
  revert i. induction l as [| p l IH]; intros [| i]; cbn; try reflexivity.
  f_equal. apply IH.
Qed.

(** A toggle inside the array succeeds, flips slot [index] as the render
    reads it and nothing else, and keeps the state well formed. *)
Lemma togglePermission_entries index st :
  well_formed st ->
  index < length (permissions st) ->
  exists st',
    togglePermission index st = inr st'
    /\ entries st' = alter flip index (entries st)
    /\ well_formed st'
    /\ (appName st', category st', hasAds st', hasIAP st', isFree st', isGame st', isSocial st')
       = (appName st, category st, hasAds st, hasIAP st, isFree st, isGame st, isSocial st).
Proof.
  intros (Hnd & Hrefs & Hkeys) Hindex.
  destruct (lookup_lt_is_Some_2 _ _ Hindex) as [r Hr].
  unfold togglePermission. rewrite Hr. eexists. split; [reflexivity |].
  assert (Forall (fun r' => r' < length (alter flip r (objects st))) (permissions st)) as Hrefs'.
  { rewrite length_alter. exact Hrefs. }
  assert (omap (fun r' => alter flip r (objects st) !! r') (permissions st)
          = alter flip index (entries st)) as Hentries.
  { apply list_eq. intros j. unfold entries.
    rewrite entries_lookup by exact Hrefs'.
    destruct (decide (index = j)) as [<- | Hne].
    - rewrite list_lookup_alter_eq, entries_lookup by exact Hrefs.
      rewrite Hr. cbn. apply list_lookup_alter_eq.
    - rewrite list_lookup_alter_ne by exact Hne.
      rewrite entries_lookup by exact Hrefs.
      destruct (permissions st !! j) as [r' |] eqn:Hr'; [| reflexivity]. cbn.
      apply list_lookup_alter_ne. intros <-.
      apply Hne. eapply NoDup_lookup; eassumption. }
  split; [exact Hentries |]. split; [| reflexivity].
  split; [exact Hnd |]. split; [exact Hrefs' |].
  unfold entries at 1. cbn [objects permissions].
  rewrite Hentries, map_key_alter_flip. exact Hkeys.
Qed.

(** With distinct keys, [find] by the key of an entry finds that entry. *)
Lemma find_by_key (l : list Permission) p :
  NoDup (map key l) -> In p l ->
  List.find (fun q => String.eqb (key q) (key p)) l = Some p.
Proof.
  induction l as [| q l IH]; intros Hnd Hin; [destruct Hin |].
  cbn in Hnd. apply NoDup_cons in Hnd as [Hq Hnd]. cbn.
  destruct Hin as [-> | Hin]; [rewrite String.eqb_refl; reflexivity |].
  destruct (String.eqb (key q) (key p)) eqn:Heq; [| apply IH; assumption].
  apply String.eqb_eq in Heq. exfalso. apply Hq. rewrite Heq.
  apply list_elem_of_In, in_map, Hin.
Qed.

Lemma seed_keys_NoDup : NoDup (map key seed).
Proof. apply (bool_decide_unpack _). vm_compute. exact I. Qed.

Lemma requests_app evs evs' : requests (evs ++ evs') = requests evs ++ requests evs'.
Proof. unfold requests. apply omap_app. Qed.

(** A submit with a name: one [POST /predict] carrying [appData st]; the
    hook's slots settle as the prediction hook settles them; a failure is
    logged to the console and goes no further. *)
Lemma handleCalculateRisk_run fetch st s evs :
  Js.trim (appName st) <> "" ->
  let call := predictPrivacy fetch privacyApi (appData st)
                {| slots := pending true s; log := evs |} in
  handleCalculateRisk fetch st {| slots := s; log := evs |}
  = (inr tt,
     {| slots := settled true s (fst call);
        log := evs
               ++ [Fetched {| url := "http://localhost:8003/predict";
                              init := {| method := Some "POST";
                                         headers := Some [("Content-Type", "application/json")];
                                         body := Some (appData st) |} |};
                   Rendered (pending true s)]
               ++ match fst call with
                  | inl err => [ConsoleError "Prediction failed:" err]
                  | inr _ => []
                  end |}).
Proof.
  intros Hname call. unfold handleCalculateRisk.
  apply truthy_Str in Hname. rewrite Hname. cbn [negb].
  async_unfold. rewrite predict_run. fold call.
  assert (log (snd call)
          = evs ++ [Fetched {| url := "http://localhost:8003/predict";
                               init := {| method := Some "POST";
                                          headers := Some [("Content-Type", "application/json")];
                                          body := Some (appData st) |} |};
                    Rendered (pending true s)]) as Hlog.
  { subst call. unfold predictPrivacy. rewrite client_log. reflexivity. }
  rewrite Hlog. destruct (fst call) as [err | result]; cbn.
  - rewrite <- app_assoc. reflexivity.
  - reflexivity.
Qed.

Lemma handleCalculateRisk_blank fetch st w :
  Js.trim (appName st) = "" ->
  handleCalculateRisk fetch st w
  = (inr tt, {| slots := slots w; log := log w ++ [Alerted "Please enter an app name"] |}).
Proof.
  intros Hname. unfold handleCalculateRisk. rewrite Hname. reflexivity.
Qed.

(** Each of the twelve switched fields of the payload reads the entry
    that carries its key. *)
Lemma appData_reads_switches st f :
  well_formed st -> f <> K_perm_other ->
  exists p, In p (entries st) /\ key p = perm_name f
            /\ AppData.perm (appData st) f = if enabled p then 1%Z else 0%Z.
Proof.
  intros (_ & _ & Hkeys) Hf.
  assert (In (perm_name f) (map key (entries st))) as Hin.
  { rewrite Hkeys. destruct f; cbn; tauto. }
  apply in_map_iff in Hin as (p & Hp & Hin).
  exists p. split; [exact Hin |]. split; [exact Hp |].
  assert (AppData.perm (appData st) f = switch st (perm_name f)) as ->
    by (destruct f; try reflexivity; congruence).
  unfold switch. rewrite <- Hp, find_by_key; [reflexivity | | exact Hin].
  rewrite Hkeys. apply seed_keys_NoDup.
Qed.

End PermissionsFacts.

(* ===================================================================== *)
(** * The claims of the specification                                      *)
(* ===================================================================== *)

(** C1 (as amended). Each of the four request hooks, when triggered,
    sets [loading] and clears the stored error, performs its client call
    (one request, during which those slots are what is rendered), and on
    completion stores the result and no error on success, or the error on
    failure, and clears [loading].  Only the prediction hook clears the
    stored result at the start; the health, categories and demo-predict
    hooks leave the previous result in place, while pending and after a
    failure.  The prediction and demo-predict triggers hand the outcome on
    to the caller; the health and categories triggers swallow it. *)
Theorem request_hooks_lifecycle (fetch : Request -> Thrown + Response.t)
    (s : Hook.State) (evs : list Event) :
  let w := {| slots := s; log := evs |} in
  let sent (clears : bool) (endpoint : string) (options : RequestInit) : list Event :=
    [Fetched {| url := API_BASE_URL +:+ endpoint; init := request_init options |};
     Rendered (pending clears s)] in
  (forall appData,
      let call := fst (predictPrivacy fetch privacyApi appData
                         {| slots := pending true s; log := evs |}) in
      predict fetch appData w
      = (call,
         {| slots := settled true s call;
            log := evs ++ sent true "/predict"
                            {| method := Some "POST"; headers := None;
                               body := Some appData |} |}))
  /\ (let call := fst (getDemoPredict fetch privacyApi
                         {| slots := pending false s; log := evs |}) in
      getDemoPredict_hook fetch w
      = (call,
         {| slots := settled false s call;
            log := evs ++ sent false "/predict/demo" no_options |}))
  /\ (let call := fst (getHealth fetch privacyApi
                         {| slots := pending false s; log := evs |}) in
      checkHealth fetch w
      = (inr tt,
         {| slots := settled false s call; log := evs ++ sent false "/" no_options |}))
  /\ (let call := fst (getCategories fetch privacyApi
                         {| slots := pending false s; log := evs |}) in
      fetchCategories fetch w
      = (inr tt,
         {| slots := settled false s call;
            log := evs ++ sent false "/categories" no_options |}))
  /\ pending true s = {| Hook.data := None; Hook.loading := true; Hook.error := None |}
  /\ pending false s
     = {| Hook.data := Hook.data s; Hook.loading := true; Hook.error := None |}
  /\ (forall clears result,
        settled clears s (inr result)
        = {| Hook.data := Some result; Hook.loading := false; Hook.error := None |})
  /\ (forall err,
        settled true s (inl err)
        = {| Hook.data := None; Hook.loading := false; Hook.error := Some err |})
  /\ (forall err,
        settled false s (inl err)
        = {| Hook.data := Hook.data s; Hook.loading := false; Hook.error := Some err |}).
Proof.
  intros w sent. subst w sent. cbv beta.
  split; [| split; [| split; [| split]]].
  - intros appData call. rewrite predict_run. subst call.
    unfold predictPrivacy. rewrite client_log. reflexivity.
  - intros call. rewrite getDemoPredict_run. subst call.
    unfold getDemoPredict. rewrite client_log. reflexivity.
  - intros call. rewrite checkHealth_run. subst call.
    unfold getHealth. rewrite client_log. reflexivity.
  - intros call. rewrite fetchCategories_run. subst call.
    unfold getCategories. rewrite client_log. reflexivity.
  - repeat split.
Qed.

(** C1, as stated, fails for the health hook (and in the same way for the
    categories and demo-predict hooks): triggered with a result stored and
    the network down, it renders the old result while pending and ends
    with both the old result and the error set. *)
Lemma checkHealth_keeps_previous_result :
  let old := Js.Obj [("status", Js.Str "healthy")] in
  let s := {| Hook.data := Some old; Hook.loading := false; Hook.error := None |} in
  let fetch : Request -> Thrown + Response.t := fun _ => inl (ThrownError "Failed to fetch") in
  let w' := snd (checkHealth fetch {| slots := s; log := [] |}) in
  log w'
  = [Fetched {| url := "http://localhost:8003/";
                init := {| method := None;
                           headers := Some [("Content-Type", "application/json")];
                           body := None |} |};
     Rendered {| Hook.data := Some old; Hook.loading := true; Hook.error := None |}]
  /\ Hook.data (slots w') = Some old
  /\ Hook.error (slots w')
     = Some (ThrownApi {| PrivacyApiError.message := Js.Exact "Failed to fetch";
                          PrivacyApiError.status := None;
                          PrivacyApiError.details := None |})
  /\ ~ (Hook.data (slots w') = None \/ Hook.error (slots w') = None).
Proof.
  intros old s fetch w'.
  assert (slots w'
          = {| Hook.data := Some old; Hook.loading := false;
               Hook.error :=
                 Some (ThrownApi {| PrivacyApiError.message := Js.Exact "Failed to fetch";
                                    PrivacyApiError.status := None;
                                    PrivacyApiError.details := None |}) |}) as Hslots
    by (vm_compute; reflexivity).
  split; [vm_compute; reflexivity |].
  rewrite Hslots. cbn.
  split; [reflexivity |]. split; [reflexivity |].
  intros [H | H]; discriminate H.
Qed.




(** C3. For every form whose permission fields satisfy the ranges of the
    data model, whose [app_name] is non-empty after trimming and whose
    [category] is non-empty, [validateForm] returns [true] and stores an
    empty errors map; [isValid], computed on the state it leaves, holds
    (its value is the category string, which is truthy). *)
Theorem validateForm_accepts_valid_form (s : AppForm.State) :
  AppForm.ranges_ok (AppForm.formData s) ->
  Js.trim (AppData.app_name (AppForm.formData s)) <> "" ->
  AppData.category (AppForm.formData s) <> "" ->
  AppForm.validateForm s
  = (true, {| AppForm.formData := AppForm.formData s; AppForm.errors := ∅ |})
  /\ Js.truthy (AppForm.isValid (snd (AppForm.validateForm s))) = true
  /\ AppForm.isValid (snd (AppForm.validateForm s))
     = Js.Str (AppData.category (AppForm.formData s)).
Proof.
  intros (H10 & H5 & Hother) Hname Hcat.
  assert (AppForm.validateForm s
          = (true, {| AppForm.formData := AppForm.formData s; AppForm.errors := ∅ |})) as Hrun.
  { rewrite validateForm_named by assumption. cbv zeta.
    rewrite (check_range_ok _ 10) by exact H10.
    rewrite (check_range_ok _ 5) by exact H5.
    replace (AppData.perm_other (AppForm.formData s) <? 0)%Z with false
      by (symmetry; apply Z.ltb_ge; lia).
    replace (AppData.perm_other (AppForm.formData s) >? 50)%Z with false
      by (symmetry; rewrite Z.gtb_ltb; apply Z.ltb_ge; lia).
    cbn [orb]. rewrite no_keys_empty. reflexivity. }
  rewrite Hrun. cbn [snd].
  destruct (isValid_truthy {| AppForm.formData := AppForm.formData s; AppForm.errors := ∅ |})
    as [Hval Htruthy]; auto.
Qed.

Lemma validateForm_accepts_valid_form_witness :
  let s := AppForm.useAppForm
             [AppForm.SetText K_app_name " Facebook "; AppForm.SetText K_category "Social";
              AppForm.SetPerm K_perm_location 10; AppForm.SetPerm K_perm_camera 5;
              AppForm.SetPerm K_perm_other 50] in
  AppForm.ranges_ok (AppForm.formData s)
  /\ AppForm.validateForm s
     = (true, {| AppForm.formData := AppForm.formData s; AppForm.errors := ∅ |})
  /\ Js.truthy (AppForm.isValid (snd (AppForm.validateForm s))) = true.
Proof.
  intros s.
  assert (AppForm.ranges_ok (AppForm.formData s)) as Hr.
  { repeat split; repeat constructor; vm_compute; discriminate. }
  split; [exact Hr |].
  destruct (validateForm_accepts_valid_form s Hr) as (H1 & H2 & _).
  - vm_compute. discriminate.
  - vm_compute. discriminate.
  - split; assumption.
Defined.

(** C4. In a form whose other fields are all in range and whose texts are
    non-empty: a general permission field set to 11 leaves an errors map
    holding the range message for that field and nothing else; camera,
    microphone or accounts set to 6 leaves the [0,5] message for that field
    alone, set to 5 leaves no error; [perm_other] set to 51 leaves its
    [0,50] message alone, set to 50 leaves no error. *)
Theorem validateForm_flags_the_offending_field (d : AppData.t) (stale : gmap string string) :
  AppForm.ranges_ok d ->
  Js.trim (AppData.app_name d) <> "" ->
  AppData.category d <> "" ->
  let errors_for (d' : AppData.t) : gmap string string :=
    AppForm.errors
      (snd (AppForm.validateForm {| AppForm.formData := d'; AppForm.errors := stale |})) in
  (forall f, f ∈ AppForm.permissionFields ->
     errors_for (AppData.set_perm f 11 d)
     = {[ perm_name f := "Value must be between 0 and 10" ]})
  /\ (forall f, f ∈ AppForm.binaryFields ->
        errors_for (AppData.set_perm f 6 d)
        = {[ perm_name f := "Value must be between 0 and 5" ]}
        /\ errors_for (AppData.set_perm f 5 d) = ∅)
  /\ errors_for (AppData.set_perm K_perm_other 51 d)
     = {[ "perm_other" := "Value must be between 0 and 50" ]}
  /\ errors_for (AppData.set_perm K_perm_other 50 d) = ∅.
Proof.
  intros (H10 & H5 & Hother) Hname Hcat errors_for. subst errors_for. cbv beta.
  assert (forall f v,
             AppForm.errors
               (snd (AppForm.validateForm
                       {| AppForm.formData := AppData.set_perm f v d;
                          AppForm.errors := stale |}))
             = let e :=
                 AppForm.check_range (AppData.set_perm f v d) 5
                   "Value must be between 0 and 5" AppForm.binaryFields
                   (AppForm.check_range (AppData.set_perm f v d) 10
                      "Value must be between 0 and 10" AppForm.permissionFields ∅) in
               if (AppData.perm (AppData.set_perm f v d) K_perm_other <? 0)%Z
                  || (AppData.perm (AppData.set_perm f v d) K_perm_other >? 50)%Z
               then <["perm_other" := "Value must be between 0 and 50"]> e else e) as Hrun.
  { intros f v. rewrite validateForm_named by (cbn; assumption). reflexivity. }
  split; [| split; [| split]].
  - intros f Hf. destruct (general_field_apart f Hf) as [Hnb Hno].
    rewrite Hrun. cbv zeta.
    rewrite (check_range_set_out d 10) by (auto using NoDup_permissionFields; lia).
    rewrite (check_range_set_other d 5) by assumption.
    rewrite perm_set_perm_ne by exact Hno.
    rewrite other_test_false by exact Hother. reflexivity.
  - intros f Hf. destruct (binary_field_apart f Hf) as [Hng Hno]. split.
    + rewrite Hrun. cbv zeta.
      rewrite (check_range_set_other d 10) by assumption.
      rewrite (check_range_set_out d 5) by (auto using NoDup_binaryFields; lia).
      rewrite perm_set_perm_ne by exact Hno.
      rewrite other_test_false by exact Hother. reflexivity.
    + rewrite Hrun. cbv zeta.
      rewrite (check_range_set_other d 10) by assumption.
      rewrite (check_range_set_in d 5) by (auto; lia).
      rewrite perm_set_perm_ne by exact Hno.
      rewrite other_test_false by exact Hother. reflexivity.
  - destruct other_field_apart as [Hng Hnb].
    rewrite Hrun. cbv zeta.
    rewrite (check_range_set_other d 10) by assumption.
    rewrite (check_range_set_other d 5) by assumption.
    rewrite perm_set_perm_eq. reflexivity.
  - destruct other_field_apart as [Hng Hnb].
    rewrite Hrun. cbv zeta.
    rewrite (check_range_set_other d 10) by assumption.
    rewrite (check_range_set_other d 5) by assumption.
    rewrite perm_set_perm_eq. reflexivity.
Qed.

Lemma validateForm_flags_the_offending_field_witness :
  let d := AppForm.spread AppForm.defaults
             [AppForm.SetText K_app_name "Maps"; AppForm.SetText K_category "Other"] in
  let errors_for (d' : AppData.t) : gmap string string :=
    AppForm.errors
      (snd (AppForm.validateForm {| AppForm.formData := d'; AppForm.errors := ∅ |})) in
  errors_for (AppData.set_perm K_perm_location 11 d)
  = {[ "perm_location" := "Value must be between 0 and 10" ]}
  /\ errors_for (AppData.set_perm K_perm_camera 6 d)
     = {[ "perm_camera" := "Value must be between 0 and 5" ]}
  /\ errors_for (AppData.set_perm K_perm_camera 5 d) = ∅
  /\ errors_for (AppData.set_perm K_perm_other 51 d)
     = {[ "perm_other" := "Value must be between 0 and 50" ]}
  /\ errors_for (AppData.set_perm K_perm_other 50 d) = ∅.
Proof.
  intros d errors_for.
  assert (AppForm.ranges_ok d) as Hr.
  { repeat split; repeat constructor; vm_compute; discriminate. }
  assert (Js.trim (AppData.app_name d) <> "") as Hname by (vm_compute; discriminate).
  assert (AppData.category d <> "") as Hcat by (vm_compute; discriminate).
  destruct (validateForm_flags_the_offending_field d ∅ Hr Hname Hcat)
    as (Hgeneral & Hbinary & H51 & H50).
  split; [exact (Hgeneral K_perm_location ltac:(left)) |].
  destruct (Hbinary K_perm_camera ltac:(left)) as [H6 H5].
  repeat split; assumption.
Defined.

(** C5. The prediction history never holds more than 10 entries, whatever
    calls ([addPrediction], [removePrediction], [clearHistory]) were made
    on it; [addPrediction] puts the new entry first; on a history of 10 it
    drops the last (oldest) entry and keeps the other nine behind the new
    one; after any run of additions the history is the 10 most recent of
    them, newest first. *)
Theorem history_holds_ten_most_recent :
  (forall calls, length (History.run calls) <= 10)
  /\ (forall h c, length h <= 10 -> length (History.step h c) <= 10)
  /\ (forall p h, exists kept,
         History.addPrediction p h = p :: kept /\ kept `prefix_of` h)
  /\ (forall p h, length h = 10 ->
        exists kept oldest,
          h = kept ++ [oldest]
          /\ History.addPrediction p h = p :: kept
          /\ length (History.addPrediction p h) = 10)
  /\ (forall ps, History.run (map History.AddPrediction ps) = take 10 (rev ps)).
Proof.
  split; [| split; [| split; [| split]]].
  - intros calls. apply fold_step_length. cbn. lia.
  - apply step_length.
  - intros p h. exists (take 9 h). split; [reflexivity |].
    exists (drop 9 h). symmetry. apply take_drop.
  - intros p h Hlen.
    destruct (exists_last (l := h)) as (kept & oldest & ->).
    { intros ->. discriminate Hlen. }
    rewrite length_app in Hlen. cbn in Hlen.
    exists kept, oldest. unfold History.addPrediction.
    rewrite take_app_length' by lia.
    repeat split. cbn. lia.
  - apply run_additions.
Qed.

Lemma history_holds_ten_most_recent_witness :
  let entry (n : string) :=
    {| PredictionResult.app_name := n; PredictionResult.privacy_level := "LOW";
       PredictionResult.privacy_score := 0; PredictionResult.confidence := 1;
       PredictionResult.level_probabilities := [];
       PredictionResult.risk_assessment := ""; PredictionResult.key_risk_factors := [];
       PredictionResult.recommendations := []; PredictionResult.timestamp := n |} in
  let h := map entry ["10"; "9"; "8"; "7"; "6"; "5"; "4"; "3"; "2"; "1"] in
  History.addPrediction (entry "11") h
  = map entry ["11"; "10"; "9"; "8"; "7"; "6"; "5"; "4"; "3"; "2"]
  /\ length (History.step h (History.RemovePrediction "4")) <= 10.
Proof.
  intros entry h.
  destruct history_holds_ten_most_recent as (_ & Hstep & _ & Hfull & _).
  split.
  - destruct (Hfull (entry "11") h eq_refl) as (kept & oldest & Hh & Hadd & _).
    rewrite Hadd. f_equal.
    change h with (map entry ["10"; "9"; "8"; "7"; "6"; "5"; "4"; "3"; "2"] ++ [entry "1"]) in Hh.
    apply app_inj_tail in Hh as [<- _]. reflexivity.
  - apply Hstep. cbn. lia.
Defined.

(** C6 (as amended). [removePrediction] removes every entry whose
    timestamp equals the one given and no entry with another timestamp,
    and keeps the remaining entries in their order: when exactly one entry
    carries the timestamp it is that one entry that goes, when none does
    the history is unchanged. *)
Theorem removePrediction_removes_matching_entries (ts : string) (h : list PredictionResult.t) :
  (forall p, In p (History.removePrediction ts h)
             <-> In p h /\ PredictionResult.timestamp p <> ts)
  /\ History.removePrediction ts h `sublist_of` h
  /\ (forall l1 l2, History.removePrediction ts (l1 ++ l2)
                    = History.removePrediction ts l1 ++ History.removePrediction ts l2)
  /\ (forall before p after,
        h = before ++ p :: after ->
        PredictionResult.timestamp p = ts ->
        Forall (fun q => PredictionResult.timestamp q <> ts) (before ++ after) ->
        History.removePrediction ts h = before ++ after)
  /\ (Forall (fun q => PredictionResult.timestamp q <> ts) h ->
      History.removePrediction ts h = h).
Proof.
  split; [| split; [| split; [| split]]].
  - intros p. unfold History.removePrediction. rewrite List.filter_In.
    rewrite negb_true_iff, String.eqb_neq. reflexivity.
  - apply removePrediction_sublist.
  - apply removePrediction_app.
  - intros before p after -> Hp Hrest.
    apply Forall_app in Hrest as [Hb Ha].
    rewrite removePrediction_app, removePrediction_cons.
    apply String.eqb_eq in Hp. rewrite Hp.
    rewrite !removePrediction_none by assumption. reflexivity.
  - apply removePrediction_none.
Qed.

Lemma removePrediction_removes_matching_entries_witness :
  let entry (n ts : string) :=
    {| PredictionResult.app_name := n; PredictionResult.privacy_level := "LOW";
       PredictionResult.privacy_score := 0; PredictionResult.confidence := 1;
       PredictionResult.level_probabilities := [];
       PredictionResult.risk_assessment := ""; PredictionResult.key_risk_factors := [];
       PredictionResult.recommendations := []; PredictionResult.timestamp := ts |} in
  History.removePrediction "t2" [entry "a" "t1"; entry "b" "t2"; entry "c" "t3"]
  = [entry "a" "t1"; entry "c" "t3"].
Proof.
  intros entry.
  destruct (removePrediction_removes_matching_entries "t2"
              [entry "a" "t1"; entry "b" "t2"; entry "c" "t3"]) as (_ & _ & _ & Hone & _).
  apply (Hone [entry "a" "t1"] (entry "b" "t2") [entry "c" "t3"]).
  - reflexivity.
  - reflexivity.
  - repeat constructor; cbn; discriminate.
Defined.

(** C6, as stated, fails: two entries carrying the same timestamp are both
    removed, so what remains is not the history less one entry. *)
Lemma removePrediction_removes_all_duplicates :
  let entry (n ts : string) :=
    {| PredictionResult.app_name := n; PredictionResult.privacy_level := "LOW";
       PredictionResult.privacy_score := 0; PredictionResult.confidence := 1;
       PredictionResult.level_probabilities := [];
       PredictionResult.risk_assessment := ""; PredictionResult.key_risk_factors := [];
       PredictionResult.recommendations := []; PredictionResult.timestamp := ts |} in
  let h := [entry "Maps" "2024-05-01T10:00:00"; entry "Mail" "2024-05-01T10:00:00"] in
  History.removePrediction "2024-05-01T10:00:00" h = []
  /\ ~ (exists before p after,
           h = before ++ p :: after
           /\ History.removePrediction "2024-05-01T10:00:00" h = before ++ after).
Proof.
  intros entry h. split; [reflexivity |].
  intros (before & p & after & Hh & Hrm).
  change (History.removePrediction "2024-05-01T10:00:00" h) with (@nil PredictionResult.t) in Hrm.
  symmetry in Hrm. apply app_eq_nil in Hrm as [-> ->].
  discriminate Hh.
Qed.

(** C7. On the Permissions Checker page, a toggle at an index of the list
    flips the [enabled] flag of that entry and changes nothing else, in the
    list or in the other slots of the page.  A submit with a name then
    sends one prediction request whose payload has, for each of the twelve
    switched fields, 1 when the entry carrying its key is enabled and 0
    otherwise, and [perm_other] 0; after one toggle on the freshly loaded
    page the toggled field is 1 (0 when the toggled entry is Network
    Access, which starts enabled), [perm_network] is 1 unless it was the
    one toggled, and every other field is 0.  A submit with a name that is
    empty after trimming raises the alert and sends no request. *)
Theorem toggle_then_submit_maps_switches :
  (forall st index,
      PermissionsChecker.well_formed st ->
      index < length (PermissionsChecker.permissions st) ->
      exists st' p,
        PermissionsChecker.togglePermission index st = inr st'
        /\ PermissionsChecker.well_formed st'
        /\ PermissionsChecker.entries st !! index = Some p
        /\ PermissionsChecker.entries st' !! index
           = Some {| PermissionsChecker.key := PermissionsChecker.key p;
                     PermissionsChecker.name := PermissionsChecker.name p;
                     PermissionsChecker.description := PermissionsChecker.description p;
                     PermissionsChecker.icon := PermissionsChecker.icon p;
                     PermissionsChecker.enabled := negb (PermissionsChecker.enabled p) |}
        /\ (forall j, j <> index ->
              PermissionsChecker.entries st' !! j = PermissionsChecker.entries st !! j)
        /\ length (PermissionsChecker.entries st') = length (PermissionsChecker.entries st)
        /\ (PermissionsChecker.appName st', PermissionsChecker.category st',
            PermissionsChecker.hasAds st', PermissionsChecker.hasIAP st',
            PermissionsChecker.isFree st', PermissionsChecker.isGame st',
            PermissionsChecker.isSocial st')
           = (PermissionsChecker.appName st, PermissionsChecker.category st,
              PermissionsChecker.hasAds st, PermissionsChecker.hasIAP st,
              PermissionsChecker.isFree st, PermissionsChecker.isGame st,
              PermissionsChecker.isSocial st))
  /\ (forall fetch st s evs,
        PermissionsChecker.well_formed st ->
        Js.trim (PermissionsChecker.appName st) <> "" ->
        requests (log (snd (PermissionsChecker.handleCalculateRisk fetch st
                              {| slots := s; log := evs |})))
        = requests evs
          ++ [ {| url := "http://localhost:8003/predict";
                  init := {| method := Some "POST";
                             headers := Some [("Content-Type", "application/json")];
                             body := Some (PermissionsChecker.appData st) |} |} ]
        /\ AppData.perm_other (PermissionsChecker.appData st) = 0%Z
        /\ (forall f, f <> K_perm_other ->
              exists p,
                In p (PermissionsChecker.entries st)
                /\ PermissionsChecker.key p = perm_name f
                /\ AppData.perm (PermissionsChecker.appData st) f
                   = if PermissionsChecker.enabled p then 1%Z else 0%Z))
  /\ (forall index,
        index < length PermissionsChecker.seed ->
        exists st',
          PermissionsChecker.togglePermission index PermissionsChecker.initial = inr st'
          /\ forall f,
               AppData.perm (PermissionsChecker.appData st') f
               = if bool_decide (map PermissionsChecker.key PermissionsChecker.seed !! index
                                 = Some (perm_name f))
                 then (if bool_decide (f = K_perm_network) then 0%Z else 1%Z)
                 else (if bool_decide (f = K_perm_network) then 1%Z else 0%Z))
  /\ (forall fetch st w,
        Js.trim (PermissionsChecker.appName st) = "" ->
        PermissionsChecker.handleCalculateRisk fetch st w
        = (inr tt, {| slots := slots w;
                      log := log w ++ [Alerted "Please enter an app name"] |})
        /\ requests (log (snd (PermissionsChecker.handleCalculateRisk fetch st w)))
           = requests (log w)).
Proof.
  split; [| split; [| split]].
  - intros st index Hwf Hindex.
    destruct (togglePermission_entries index st Hwf Hindex)
      as (st' & Hrun & Hentries & Hwf' & Hslots).
    assert (is_Some (PermissionsChecker.entries st !! index)) as [p Hp].
    { destruct Hwf as (_ & Hrefs & _).
      destruct (lookup_lt_is_Some_2 _ _ Hindex) as [r Hr].
      unfold PermissionsChecker.entries.
      rewrite entries_lookup by exact Hrefs. rewrite Hr. cbn.
      apply lookup_lt_is_Some_2.
      rewrite Forall_forall in Hrefs. apply Hrefs.
      eapply list_elem_of_lookup_2. exact Hr. }
    exists st', p. split; [exact Hrun |]. split; [exact Hwf' |]. split; [exact Hp |].
    rewrite Hentries. split; [| split; [| split]].
    + rewrite list_lookup_alter_eq, Hp. reflexivity.
    + intros j Hj. apply list_lookup_alter_ne. congruence.
    + apply length_alter.
    + exact Hslots.
  - intros fetch st s evs Hwf Hname. split; [| split].
    + rewrite handleCalculateRisk_run by exact Hname. cbn [snd log].
      rewrite !requests_app. cbn.
      destruct (fst _); reflexivity.
    + reflexivity.
    + intros f Hf. apply appData_reads_switches; assumption.
  - intros index Hindex.
    do 12 (destruct index as [| index];
           [eexists; split; [reflexivity | intros f; destruct f; vm_compute; reflexivity] |]).
    cbn in Hindex. lia.
  - intros fetch st w Hname.
    rewrite handleCalculateRisk_blank by exact Hname. split; [reflexivity |].
    cbn [snd log]. rewrite requests_app. cbn. apply app_nil_r.
Qed.

Lemma toggle_then_submit_maps_switches_witness :
  let typed := {| PermissionsChecker.appName := "Maps";
                  PermissionsChecker.category := "Social";
                  PermissionsChecker.hasAds := false; PermissionsChecker.hasIAP := false;
                  PermissionsChecker.isFree := true; PermissionsChecker.isGame := false;
                  PermissionsChecker.isSocial := false;
                  PermissionsChecker.objects := PermissionsChecker.seed;
                  PermissionsChecker.permissions := seq 0 12 |} in
  let fetch : Request -> Thrown + Response.t := fun _ => inl (ThrownError "Failed to fetch") in
  (exists st',
      PermissionsChecker.togglePermission 0 typed = inr st'
      /\ PermissionsChecker.enabled <$> PermissionsChecker.entries st' !! 0 = Some true
      /\ PermissionsChecker.entries st' !! 8 = PermissionsChecker.entries typed !! 8
      /\ requests (log (snd (PermissionsChecker.handleCalculateRisk fetch st'
                               {| slots := Hook.initial; log := [] |})))
         = [ {| url := "http://localhost:8003/predict";
                init := {| method := Some "POST";
                           headers := Some [("Content-Type", "application/json")];
                           body := Some (PermissionsChecker.appData st') |} |} ]
      /\ AppData.perm_location (PermissionsChecker.appData st') = 1%Z)
  /\ requests (log (snd (PermissionsChecker.handleCalculateRisk fetch
                           PermissionsChecker.initial
                           {| slots := Hook.initial; log := [] |}))) = [].
Proof.
  intros typed fetch.
  destruct toggle_then_submit_maps_switches as (Htoggle & Hsubmit & Hseed & Hblank).
  assert (PermissionsChecker.well_formed typed) as Hwf.
  { split; [apply NoDup_seq | split; [| reflexivity]].
    apply Forall_forall. intros r Hr. apply elem_of_seq in Hr. cbn in *. lia. }
  split.
  - destruct (Htoggle typed 0 Hwf ltac:(cbn; lia))
      as (st' & p & Hrun & Hwf' & Hp & Hflip & Hrest & _ & Hslots).
    exists st'. split; [exact Hrun |].
    injection Hp as <-.
    split; [rewrite Hflip; reflexivity |].
    split; [apply Hrest; discriminate |].
    assert (Js.trim (PermissionsChecker.appName st') <> "") as Hname.
    { injection Hslots as -> _. vm_compute. discriminate. }
    destruct (Hsubmit fetch st' Hook.initial [] Hwf' Hname) as (Hreq & _ & _).
    split; [exact Hreq |].
    injection Hrun as <-. reflexivity.
  - apply (Hblank fetch PermissionsChecker.initial {| slots := Hook.initial; log := [] |}).
    reflexivity.
Defined.

(** C8. The Simple Privacy Checker and the Permissions Checker page map a
    risk level to the same badge classes: LOW to the green pair, MEDIUM to
    the yellow pair, HIGH to the orange pair, CRITICAL to the red pair and
    every other string to the gray pair. *)
Theorem getRiskColor_is_one_mapping (level : string) :
  SimplePrivacyChecker.getRiskColor level = PermissionsChecker.getRiskColor level
  /\ PermissionsChecker.getRiskColor "LOW" = "text-green-600 bg-green-100"
  /\ PermissionsChecker.getRiskColor "MEDIUM" = "text-yellow-600 bg-yellow-100"
  /\ PermissionsChecker.getRiskColor "HIGH" = "text-orange-600 bg-orange-100"
  /\ PermissionsChecker.getRiskColor "CRITICAL" = "text-red-600 bg-red-100"
  /\ (level <> "LOW" -> level <> "MEDIUM" -> level <> "HIGH" -> level <> "CRITICAL" ->
      PermissionsChecker.getRiskColor level = "text-gray-600 bg-gray-100").
Proof.
  split; [reflexivity |]. repeat (split; [reflexivity |]).
  intros Hlow Hmedium Hhigh Hcritical. unfold PermissionsChecker.getRiskColor.
  apply String.eqb_neq in Hlow, Hmedium, Hhigh, Hcritical.
  rewrite Hlow, Hmedium, Hhigh, Hcritical. reflexivity.
Qed.

Lemma getRiskColor_is_one_mapping_witness :
  SimplePrivacyChecker.getRiskColor "low" = "text-gray-600 bg-gray-100"
  /\ PermissionsChecker.getRiskColor "low" = "text-gray-600 bg-gray-100".
Proof.
  destruct (getRiskColor_is_one_mapping "low") as (Hsame & _ & _ & _ & _ & Hgray).
  rewrite Hsame. split; apply Hgray; discriminate.
Defined.

(** C9 (as amended). "Check Another App" empties the application-name
    input and leaves the slots of the prediction hook as they are: a
    result that was shown stays shown, and the instructions of the
    pre-result state do not come back. *)
Theorem check_another_app_clears_input_only (st : SimplePrivacyChecker.State) :
  SimplePrivacyChecker.appInput (SimplePrivacyChecker.click_check_another st) = ""
  /\ SimplePrivacyChecker.hook (SimplePrivacyChecker.click_check_another st)
     = SimplePrivacyChecker.hook st
  /\ SimplePrivacyChecker.result_shown (SimplePrivacyChecker.click_check_another st)
     = SimplePrivacyChecker.result_shown st
  /\ (SimplePrivacyChecker.result_shown st = true ->
      SimplePrivacyChecker.instructions_shown (SimplePrivacyChecker.click_check_another st)
      = false).
Proof.
  repeat split. intros Hshown.
  unfold SimplePrivacyChecker.instructions_shown.
  change (SimplePrivacyChecker.result_shown (SimplePrivacyChecker.click_check_another st))
    with (SimplePrivacyChecker.result_shown st).
  rewrite Hshown. reflexivity.
Qed.

Lemma check_another_app_clears_input_only_witness :
  let answer :=
    Js.Obj [("app_name", Js.Str "Facebook");
            ("privacy_level", Js.Str "MEDIUM");
            ("privacy_score", Js.Num 42);
            ("confidence", Js.Num (87 # 100));
            ("level_probabilities",
             Js.Obj [("LOW", Js.Num (5 # 100)); ("MEDIUM", Js.Num (87 # 100));
                     ("HIGH", Js.Num (6 # 100)); ("CRITICAL", Js.Num (2 # 100))]);
            ("risk_assessment", Js.Str "Moderate privacy risk");
            ("key_risk_factors", Js.Arr [Js.Str "Accesses your location data"]);
            ("recommendations", Js.Arr [Js.Str "Review location permissions"]);
            ("timestamp", Js.Str "2024-05-01T10:00:00")] in
  let st := {| SimplePrivacyChecker.appInput := "Facebook";
               SimplePrivacyChecker.hook :=
                 {| Hook.data := Some answer; Hook.loading := false; Hook.error := None |} |} in
  SimplePrivacyChecker.instructions_shown (SimplePrivacyChecker.click_check_another st) = false.
Proof.
  intros answer st.
  destruct (check_another_app_clears_input_only st) as (_ & _ & _ & Hstays).
  apply Hstays. reflexivity.
Defined.

(** C9, as stated, fails: after a search for "Facebook" that the backend
    answers with a complete [PredictionResult], "Check Another App" leaves
    the answer in the hook and on the screen; the surface is not back in
    its initial state. *)
Lemma check_another_app_keeps_result :
  let answer :=
    Js.Obj [("app_name", Js.Str "Facebook");
            ("privacy_level", Js.Str "MEDIUM");
            ("privacy_score", Js.Num 42);
            ("confidence", Js.Num (87 # 100));
            ("level_probabilities",
             Js.Obj [("LOW", Js.Num (5 # 100)); ("MEDIUM", Js.Num (87 # 100));
                     ("HIGH", Js.Num (6 # 100)); ("CRITICAL", Js.Num (2 # 100))]);
            ("risk_assessment", Js.Str "Moderate privacy risk");
            ("key_risk_factors", Js.Arr [Js.Str "Accesses your location data"]);
            ("recommendations", Js.Arr [Js.Str "Review location permissions"]);
            ("timestamp", Js.Str "2024-05-01T10:00:00")] in
  let fetch : Request -> Thrown + Response.t :=
    fun _ => inr {| Response.ok := true; Response.status := 200;
                    Response.statusText := "OK"; Response.json := inr answer |} in
  let searched :=
    fst (SimplePrivacyChecker.click_check fetch
           (SimplePrivacyChecker.type_input "Facebook" SimplePrivacyChecker.initial)) in
  SimplePrivacyChecker.result_shown searched = true
  /\ Hook.data (SimplePrivacyChecker.hook (SimplePrivacyChecker.click_check_another searched))
     = Some answer
  /\ SimplePrivacyChecker.result_shown (SimplePrivacyChecker.click_check_another searched) = true
  /\ SimplePrivacyChecker.click_check_another searched <> SimplePrivacyChecker.initial.
Proof.
  intros answer fetch searched.
  assert (Hook.data (SimplePrivacyChecker.hook searched) = Some answer) as Hdata
    by (vm_compute; reflexivity).
  split; [unfold SimplePrivacyChecker.result_shown; rewrite Hdata; reflexivity |].
  split; [exact Hdata |].
  split; [unfold SimplePrivacyChecker.result_shown; cbn [SimplePrivacyChecker.click_check_another
            SimplePrivacyChecker.hook]; rewrite Hdata; reflexivity |].
  intros Heq. apply (f_equal (fun st => Hook.data (SimplePrivacyChecker.hook st))) in Heq.
  cbn [SimplePrivacyChecker.click_check_another SimplePrivacyChecker.hook] in Heq.
  rewrite Hdata in Heq. discriminate Heq.
Qed.

(** C10. [isValid] is a function of the stored errors map, of [app_name]
    and of [category] only.  So with non-empty texts it holds whenever
    the stored map is empty, whatever the permission values: after
    [updateField] put any value (out of range included) into a permission
    field of a form that [validateForm] had accepted, and likewise on a
    form no [validateForm] has run on yet. *)
Theorem isValid_does_not_recheck_ranges :
  (forall s s',
      AppForm.errors s = AppForm.errors s' ->
      AppData.app_name (AppForm.formData s) = AppData.app_name (AppForm.formData s') ->
      AppData.category (AppForm.formData s) = AppData.category (AppForm.formData s') ->
      AppForm.isValid s = AppForm.isValid s')
  /\ (forall s f v,
        fst (AppForm.validateForm s) = true ->
        Js.truthy
          (AppForm.isValid
             (AppForm.updateField (AppForm.SetPerm f v) (snd (AppForm.validateForm s))))
        = true)
  /\ (forall initialData f v,
        let s := AppForm.updateField (AppForm.SetPerm f v) (AppForm.useAppForm initialData) in
        Js.trim (AppData.app_name (AppForm.formData s)) <> "" ->
        AppData.category (AppForm.formData s) <> "" ->
        Js.truthy (AppForm.isValid s) = true).
Proof.
  split; [| split].
  - intros s s' He Hn Hc. unfold AppForm.isValid. rewrite He, Hn, Hc. reflexivity.
  - intros s f v Hok.
    destruct (validateForm_true s Hok) as (Hname & Hcat & He).
    apply isValid_truthy.
    + unfold AppForm.updateField, AppForm.updateField_in. cbn [AppForm.errors]. rewrite He.
      unfold AppForm.has_error. rewrite lookup_empty. reflexivity.
    + exact Hname.
    + exact Hcat.
  - intros initialData f v s Hname Hcat.
    apply isValid_truthy; [| exact Hname | exact Hcat].
    reflexivity.
Qed.

Lemma isValid_does_not_recheck_ranges_witness :
  let s0 := AppForm.useAppForm
              [AppForm.SetText K_app_name "Maps"; AppForm.SetText K_category "Other"] in
  let s1 := AppForm.updateField (AppForm.SetPerm K_perm_location 11)
              (snd (AppForm.validateForm s0)) in
  let s2 := AppForm.updateField (AppForm.SetPerm K_perm_location 11) s0 in
  fst (AppForm.validateForm s0) = true
  /\ ~ AppForm.ranges_ok (AppForm.formData s1)
  /\ Js.truthy (AppForm.isValid s1) = true
  /\ Js.truthy (AppForm.isValid s2) = true.
Proof.
  intros s0 s1 s2.
  destruct isValid_does_not_recheck_ranges as (_ & Hafter & Hbefore).
  assert (fst (AppForm.validateForm s0) = true) as Hok by (vm_compute; reflexivity).
  split; [exact Hok |]. split.
  - intros (H10 & _). apply Forall_cons in H10 as [[_ Hle] _].
    vm_compute in Hle. apply Hle. reflexivity.
  - split.
    + exact (Hafter s0 K_perm_location 11%Z Hok).
    + apply (Hbefore [AppForm.SetText K_app_name "Maps"; AppForm.SetText K_category "Other"]
               K_perm_location 11%Z); vm_compute; discriminate.
Defined.

(* ===================================================================== *)
(** * Further properties of the code                                       *)
(* ===================================================================== *)

(** ** The client *)

(** X1. A success response whose body parses is returned as parsed; the
    call leaves the state slots alone and logs its one request. *)
Theorem makeRequest_returns_parsed_body (fetch : Request -> Thrown + Response.t)
    (this : PrivacyApiClient) (endpoint : string) (options : RequestInit) (w : World)
    (response : Response.t) (parsed : Js.Value) :
  fetch {| url := baseUrl this +:+ endpoint; init := request_init options |} = inr response ->
  Response.ok response = true ->
  Response.json response = inr parsed ->
  makeRequest fetch this endpoint options w
  = (inr parsed,
     {| slots := slots w;
        log := log w ++ [Fetched {| url := baseUrl this +:+ endpoint;
                                    init := request_init options |};
                         Rendered (slots w)] |}).
Proof.
  intros Hfetch Hok Hjson. unfold makeRequest. async_unfold.
  rewrite Hfetch, Hok. cbn. rewrite Hjson. reflexivity.
Qed.

Lemma makeRequest_returns_parsed_body_witness :
  let body := Js.Obj [("status", Js.Str "healthy")] in
  let response := {| Response.ok := true; Response.status := 200;
                     Response.statusText := "OK"; Response.json := inr body |} in
  fst (makeRequest (fun _ => inr response) privacyApi "/" no_options
         {| slots := Hook.initial; log := [] |})
  = inr body.
Proof.
  intros body response.
  rewrite (makeRequest_returns_parsed_body (fun _ => inr response) privacyApi "/" no_options
             {| slots := Hook.initial; log := [] |} response body eq_refl eq_refl eq_refl).
  reflexivity.
Defined.

(** X2. Failures that are not HTTP error responses come back as a
    [PrivacyApiError] without status and details: a rejected [fetch]
    carrying an [Error] gives that error's message, one carrying anything
    else gives "Network error occurred", and a success response whose body
    does not parse gives the parser's message (its status code is not
    kept). *)
Theorem makeRequest_wraps_other_failures (fetch : Request -> Thrown + Response.t)
    (this : PrivacyApiClient) (endpoint : string) (options : RequestInit) (w : World) :
  let request := {| url := baseUrl this +:+ endpoint; init := request_init options |} in
  let bare (text : string) : Thrown + Js.Value :=
    inl (ThrownApi {| PrivacyApiError.message := Js.Exact text;
                      PrivacyApiError.status := None;
                      PrivacyApiError.details := None |}) in
  (forall text, fetch request = inl (ThrownError text) ->
                fst (makeRequest fetch this endpoint options w) = bare text)
  /\ (fetch request = inl ThrownValue ->
      fst (makeRequest fetch this endpoint options w) = bare "Network error occurred")
  /\ (forall response text,
        fetch request = inr response ->
        Response.ok response = true ->
        Response.json response = inl (ThrownError text) ->
        fst (makeRequest fetch this endpoint options w) = bare text).
Proof.
  intros request bare. subst request bare. cbv beta.
  split; [| split].
  - intros text Hfetch. unfold makeRequest. async_unfold. rewrite Hfetch. reflexivity.
  - intros Hfetch. unfold makeRequest. async_unfold. rewrite Hfetch. reflexivity.
  - intros response text Hfetch Hok Hjson. unfold makeRequest. async_unfold.
    rewrite Hfetch, Hok. cbn. rewrite Hjson. reflexivity.
Qed.

Lemma makeRequest_wraps_other_failures_witness :
  let w := {| slots := Hook.initial; log := [] |} in
  let page := {| Response.ok := true; Response.status := 200; Response.statusText := "OK";
                 Response.json := inl (ThrownError "Unexpected end of JSON input") |} in
  PrivacyApiError.message
    <$> (match fst (makeRequest (fun _ => inl (ThrownError "Failed to fetch"))
                      privacyApi "/predict" no_options w) with
         | inl (ThrownApi e) => Some e
         | _ => None
         end)
  = Some (Js.Exact "Failed to fetch")
  /\ fst (makeRequest (fun _ => inl ThrownValue) privacyApi "/predict" no_options w)
     = inl (ThrownApi {| PrivacyApiError.message := Js.Exact "Network error occurred";
                         PrivacyApiError.status := None;
                         PrivacyApiError.details := None |})
  /\ fst (makeRequest (fun _ => inr page) privacyApi "/predict" no_options w)
     = inl (ThrownApi {| PrivacyApiError.message := Js.Exact "Unexpected end of JSON input";
                         PrivacyApiError.status := None;
                         PrivacyApiError.details := None |}).
Proof.
  intros w page. split; [| split].
  - destruct (makeRequest_wraps_other_failures (fun _ => inl (ThrownError "Failed to fetch"))
                privacyApi "/predict" no_options w) as (Herror & _ & _).
    rewrite (Herror "Failed to fetch" eq_refl). reflexivity.
  - destruct (makeRequest_wraps_other_failures (fun _ => inl ThrownValue)
                privacyApi "/predict" no_options w) as (_ & Hvalue & _).
    exact (Hvalue eq_refl).
  - destruct (makeRequest_wraps_other_failures (fun _ => inr page)
                privacyApi "/predict" no_options w) as (_ & _ & Hparse).
    exact (Hparse page "Unexpected end of JSON input" eq_refl eq_refl eq_refl).
Defined.

(** X3. Whatever the network does, [makeRequest] either returns a value
    or throws a [PrivacyApiError], never anything else; it sends exactly
    one request and changes no state slot. *)
Theorem makeRequest_single_error_surface (fetch : Request -> Thrown + Response.t)
    (this : PrivacyApiClient) (endpoint : string) (options : RequestInit) (w : World) :
  ((exists value, fst (makeRequest fetch this endpoint options w) = inr value)
   \/ (exists e, fst (makeRequest fetch this endpoint options w) = inl (ThrownApi e)))
  /\ slots (snd (makeRequest fetch this endpoint options w)) = slots w
  /\ requests (log (snd (makeRequest fetch this endpoint options w)))
     = requests (log w)
       ++ [ {| url := baseUrl this +:+ endpoint; init := request_init options |} ].
Proof.
  destruct (makeRequest_run fetch this endpoint options w) as (r & Hrun & Hr).
  rewrite Hrun. cbn [fst snd slots log]. split; [| split].
  - destruct r as [[e | text |] | value]; try contradiction; eauto.
  - reflexivity.
  - rewrite requests_app. reflexivity.
Qed.

(** X4. An error response whose JSON body is [null] does not produce the
    status-carrying error: reading [detail] off [null] fails, the outer
    handler catches that, and the error thrown has neither status nor
    details. *)
Theorem makeRequest_null_body_drops_status (fetch : Request -> Thrown + Response.t)
    (this : PrivacyApiClient) (endpoint : string) (options : RequestInit) (w : World)
    (response : Response.t) :
  fetch {| url := baseUrl this +:+ endpoint; init := request_init options |} = inr response ->
  Response.ok response = false ->
  Response.json response = inr Js.Null ->
  exists text,
    fst (makeRequest fetch this endpoint options w)
    = inl (ThrownApi {| PrivacyApiError.message := Js.Exact text;
                        PrivacyApiError.status := None;
                        PrivacyApiError.details := None |}).
Proof.
  intros Hfetch Hok Hjson. unfold makeRequest. async_unfold.
  rewrite Hfetch, Hok. cbn. rewrite Hjson. cbn. eexists. reflexivity.
Qed.

Lemma makeRequest_null_body_drops_status_witness :
  let response := {| Response.ok := false; Response.status := 502;
                     Response.statusText := "Bad Gateway"; Response.json := inr Js.Null |} in
  exists text,
    fst (makeRequest (fun _ => inr response) privacyApi "/categories" no_options
           {| slots := Hook.initial; log := [] |})
    = inl (ThrownApi {| PrivacyApiError.message := Js.Exact text;
                        PrivacyApiError.status := None;
                        PrivacyApiError.details := None |}).
Proof.
  intros response.
  exact (makeRequest_null_body_drops_status (fun _ => inr response) privacyApi "/categories"
           no_options {| slots := Hook.initial; log := [] |} response
           eq_refl eq_refl eq_refl).
Defined.

(** X5. The request that goes out carries the JSON content type only when
    the caller passes no headers: headers the caller passes replace the
    merged ones whole, so a caller who passes headers without a content
    type sends none.  Method and body go out as passed. *)
Theorem makeRequest_caller_headers_replace_default
    (fetch : Request -> Thrown + Response.t) (this : PrivacyApiClient)
    (endpoint : string) (options : RequestInit) (w : World) :
  exists sent,
    requests (log (snd (makeRequest fetch this endpoint options w)))
    = requests (log w) ++ [sent]
    /\ url sent = baseUrl this +:+ endpoint
    /\ method (init sent) = method options
    /\ body (init sent) = body options
    /\ (headers options = None ->
        headers (init sent) = Some [("Content-Type", "application/json")])
    /\ (forall given, headers options = Some given -> headers (init sent) = Some given).
Proof.
  exists {| url := baseUrl this +:+ endpoint; init := request_init options |}.
  destruct (makeRequest_run fetch this endpoint options w) as (r & Hrun & _).
  rewrite Hrun. cbn [snd log]. rewrite requests_app.
  split; [reflexivity |]. split; [reflexivity |]. split; [reflexivity |].
  split; [reflexivity |]. unfold request_init. cbn [init headers].
  split; [intros -> | intros given ->]; reflexivity.
Qed.

Lemma makeRequest_caller_headers_replace_default_witness :
  let options := {| method := Some "POST"; headers := Some [("Accept", "text/plain")];
                    body := None |} in
  requests (log (snd (makeRequest (fun _ => inl ThrownValue) privacyApi "/predict" options
                        {| slots := Hook.initial; log := [] |})))
  = [ {| url := "http://localhost:8003/predict";
         init := {| method := Some "POST"; headers := Some [("Accept", "text/plain")];
                    body := None |} |} ].
Proof.
  intros options.
  destruct (makeRequest_caller_headers_replace_default (fun _ => inl ThrownValue) privacyApi
              "/predict" options {| slots := Hook.initial; log := [] |})
    as ([sent_url [sent_method sent_headers sent_body]]
        & Hlog & Hurl & Hmethod & Hbody & _ & Hgiven).
  rewrite Hlog. cbn in Hurl, Hmethod, Hbody.
  pose proof (Hgiven [("Accept", "text/plain")] eq_refl) as Hheaders. cbn in Hheaders.
  subst. reflexivity.
Defined.

(** X6. Each of the four operations of the shared client sends exactly one
    request to the fixed base address: the root, [/categories] and
    [/predict/demo] without method or body, [/predict] as a POST carrying
    the [AppData]; all with the JSON content type. *)
Theorem client_operations_requests (fetch : Request -> Thrown + Response.t)
    (appData : AppData.t) (w : World) :
  let plain (path : string) : Request :=
    {| url := "http://localhost:8003" +:+ path;
       init := {| method := None;
                  headers := Some [("Content-Type", "application/json")];
                  body := None |} |} in
  requests (log (snd (getHealth fetch privacyApi w))) = requests (log w) ++ [plain "/"]
  /\ requests (log (snd (getCategories fetch privacyApi w)))
     = requests (log w) ++ [plain "/categories"]
  /\ requests (log (snd (getDemoPredict fetch privacyApi w)))
     = requests (log w) ++ [plain "/predict/demo"]
  /\ requests (log (snd (predictPrivacy fetch privacyApi appData w)))
     = requests (log w)
       ++ [ {| url := "http://localhost:8003/predict";
               init := {| method := Some "POST";
                          headers := Some [("Content-Type", "application/json")];
                          body := Some appData |} |} ].
Proof.
  intros plain. subst plain. cbv beta.
  unfold getHealth, getCategories, getDemoPredict, predictPrivacy.
  rewrite !client_log. cbn [log]. rewrite !requests_app.
  repeat split.
Qed.

(** ** The request hooks *)

(** X7. The error slot of a request hook is typed [PrivacyApiError] through
    an unchecked cast; the cast is sound.  After a trigger of any of the
    four hooks the hook is no longer loading and its error slot is empty
    or holds a [PrivacyApiError].  What [predict] and [getDemoPredict]
    throw is the error they stored, and what they return is the result
    they stored. *)
Theorem hook_error_is_api_error (fetch : Request -> Thrown + Response.t)
    (s : Hook.State) (evs : list Event) :
  let w := {| slots := s; log := evs |} in
  let sound (s' : Hook.State) : Prop :=
    Hook.loading s' = false
    /\ (Hook.error s' = None \/ exists e, Hook.error s' = Some (ThrownApi e)) in
  let hands_on (run : (Thrown + Js.Value) * World) : Prop :=
    match fst run with
    | inr result =>
        Hook.data (slots (snd run)) = Some result /\ Hook.error (slots (snd run)) = None
    | inl thrown =>
        Hook.error (slots (snd run)) = Some thrown /\ exists e, thrown = ThrownApi e
    end in
  sound (slots (snd (checkHealth fetch w)))
  /\ sound (slots (snd (fetchCategories fetch w)))
  /\ (forall appData,
        sound (slots (snd (predict fetch appData w)))
        /\ hands_on (predict fetch appData w))
  /\ sound (slots (snd (getDemoPredict_hook fetch w)))
  /\ hands_on (getDemoPredict_hook fetch w).
Proof.
  intros w sound hands_on. subst w sound hands_on. cbv beta.
  assert (forall clears endpoint options,
             let call := fst (makeRequest fetch privacyApi endpoint options
                                {| slots := pending clears s; log := evs |}) in
             Hook.loading (settled clears s call) = false
             /\ (Hook.error (settled clears s call) = None
                 \/ exists e, Hook.error (settled clears s call) = Some (ThrownApi e))
             /\ match call with
                | inr result =>
                    Hook.data (settled clears s call) = Some result
                    /\ Hook.error (settled clears s call) = None
                | inl thrown =>
                    Hook.error (settled clears s call) = Some thrown
                    /\ exists e, thrown = ThrownApi e
                end) as Hcall.
  { intros clears endpoint options call. subst call.
    destruct (makeRequest_run fetch privacyApi endpoint options
                {| slots := pending clears s; log := evs |}) as (r & Hrun & Hr).
    rewrite Hrun. cbn [fst].
    destruct r as [[e | text |] | result]; try contradiction; cbn.
    - split; [reflexivity |]. split; [right; eexists; reflexivity |].
      split; [reflexivity | eexists; reflexivity].
    - split; [reflexivity |]. split; [left; reflexivity |]. split; reflexivity. }
  split; [| split; [| split; [| split]]].
  - rewrite checkHealth_run. cbn [snd slots].
    destruct (Hcall false "/" no_options) as (Hl & He & _). split; assumption.
  - rewrite fetchCategories_run. cbn [snd slots].
    destruct (Hcall false "/categories" no_options) as (Hl & He & _). split; assumption.
  - intros appData. rewrite predict_run. cbn [fst snd slots].
    destruct (Hcall true "/predict"
                {| method := Some "POST"; headers := None; body := Some appData |})
      as (Hl & He & Hh).
    split; [split; assumption | exact Hh].
  - rewrite getDemoPredict_run. cbn [snd slots].
    destruct (Hcall false "/predict/demo" no_options) as (Hl & He & _). split; assumption.
  - rewrite getDemoPredict_run. cbn [fst snd slots].
    destruct (Hcall false "/predict/demo" no_options) as (_ & _ & Hh). exact Hh.
Qed.

(** ** The form hook *)

Section FormMore.

Import AppForm.

(** A pass that leaves the map empty started from the empty map and met
    no value outside [0, hi]. *)
Lemma check_range_empty d hi msg fields (acc : gmap string string) :
  check_range d hi msg fields acc = ∅ ->
  acc = ∅ /\ Forall (fun f => (0 <= AppData.perm d f <= hi)%Z) fields.
Proof.
  unfold check_range. revert acc.
  induction fields as [| f fields IH]; intros acc H; cbn in H; [auto |].
  apply IH in H as [Hacc Hrest].
  destruct ((AppData.perm d f <? 0)%Z || (AppData.perm d f >? hi)%Z) eqn:Hout.
  - destruct (insert_non_empty _ _ _ Hacc).
  - split; [exact Hacc |]. constructor; [| exact Hrest].
    apply orb_false_iff in Hout as [Hlo Hhi].
    rewrite Z.ltb_ge in Hlo. rewrite Z.gtb_ltb, Z.ltb_ge in Hhi. lia.
Qed.

(** What a pass leaves under the key of one of its own fields. *)
Lemma check_range_lookup_in d hi msg fields g (acc : gmap string string) :
  NoDup fields -> g ∈ fields ->
  check_range d hi msg fields acc !! perm_name g
  = if (AppData.perm d g <? 0)%Z || (AppData.perm d g >? hi)%Z
    then Some msg else acc !! perm_name g.
Proof.
  unfold check_range. intros Hnd. revert acc.
  induction fields as [| f fields IH]; intros acc Hg; [inversion Hg |].
  apply NoDup_cons in Hnd as [Hf Hnd]. cbn [fold_left].
  destruct (decide (g = f)) as [-> | Hne].
  - clear IH.
    assert (forall acc' : gmap string string,
               fold_left
                 (fun acc0 field =>
                    if (AppData.perm d field <? 0)%Z || (AppData.perm d field >? hi)%Z
                    then <[perm_name field := msg]> acc0 else acc0) fields acc'
               !! perm_name f = acc' !! perm_name f) as Hskip.
    { clear Hg Hnd. induction fields as [| h fields IH]; intros acc'; [reflexivity |].
      cbn [fold_left]. rewrite IH by (intros Hin; apply Hf; right; exact Hin).
      destruct (_ || _); [| reflexivity].
      apply lookup_insert_ne. intros Heq. apply perm_name_inj in Heq. subst h.
      apply Hf. left. }
    rewrite Hskip. destruct (_ || _); [apply lookup_insert_eq | reflexivity].
  - apply elem_of_cons in Hg as [Hg | Hg]; [contradiction |].
    rewrite IH by assumption.
    destruct ((AppData.perm d g <? 0)%Z || (AppData.perm d g >? hi)%Z); [reflexivity |].
    destruct (_ || _); [| reflexivity].
    apply lookup_insert_ne. intros Heq. apply perm_name_inj in Heq. congruence.
Qed.

(** A pass writes under the keys of its own fields only. *)
Lemma check_range_lookup_out d hi msg fields k (acc : gmap string string) :
  (forall f, f ∈ fields -> perm_name f <> k) ->
  check_range d hi msg fields acc !! k = acc !! k.
Proof.
  unfold check_range. revert acc.
  induction fields as [| f fields IH]; intros acc Hk; [reflexivity |].
  cbn [fold_left]. rewrite IH by (intros h Hh; apply Hk; right; exact Hh).
  destruct (_ || _); [| reflexivity].
  apply lookup_insert_ne, Hk. left.
Qed.

Lemma validateForm_accepts s :
  ranges_ok (formData s) ->
  Js.trim (AppData.app_name (formData s)) <> "" ->
  AppData.category (formData s) <> "" ->
  validateForm s = (true, {| formData := formData s; errors := ∅ |}).
Proof.
  intros (H10 & H5 & Hother) Hname Hcat.
  rewrite validateForm_named by assumption. cbv zeta.
  rewrite (check_range_ok _ 10) by exact H10.
  rewrite (check_range_ok _ 5) by exact H5.
  rewrite other_test_false by exact Hother.
  rewrite no_keys_empty. reflexivity.
Qed.

End FormMore.

(** X8. For a form whose permission counters are integers, [validateForm]
    answers [true] exactly when the form meets the invariants of the data
    model: [app_name] non-empty after trimming, [category] non-empty, and
    every permission counter within its range. *)
Theorem validateForm_true_iff_valid (s : AppForm.State) :
  fst (AppForm.validateForm s) = true
  <-> Js.trim (AppData.app_name (AppForm.formData s)) <> ""
      /\ AppData.category (AppForm.formData s) <> ""
      /\ AppForm.ranges_ok (AppForm.formData s).
Proof.
  split.
  - intros Hok. destruct (validateForm_true s Hok) as (Hname & Hcat & Hempty).
    split; [exact Hname |]. split; [exact Hcat |].
    rewrite validateForm_named in Hempty by assumption.
    cbv zeta in Hempty. cbn [snd AppForm.errors] in Hempty.
    destruct ((AppData.perm_other (AppForm.formData s) <? 0)%Z
              || (AppData.perm_other (AppForm.formData s) >? 50)%Z) eqn:Hother;
      [destruct (insert_non_empty _ _ _ Hempty) |].
    apply check_range_empty in Hempty as [Hempty H5].
    apply check_range_empty in Hempty as [_ H10].
    split; [exact H10 |]. split; [exact H5 |].
    apply orb_false_iff in Hother as [Hlo Hhi].
    rewrite Z.ltb_ge in Hlo. rewrite Z.gtb_ltb, Z.ltb_ge in Hhi. lia.
  - intros (Hname & Hcat & Hranges).
    rewrite validateForm_accepts by assumption. reflexivity.
Qed.

Lemma validateForm_true_iff_valid_witness :
  let s := AppForm.useAppForm
             [AppForm.SetText K_app_name "Maps"; AppForm.SetText K_category "Other";
              AppForm.SetPerm K_perm_sms (-1)] in
  fst (AppForm.validateForm s) = false /\ ~ AppForm.ranges_ok (AppForm.formData s).
Proof.
  intros s.
  assert (fst (AppForm.validateForm s) = false) as Hrun by (vm_compute; reflexivity).
  split; [exact Hrun |].
  intros Hranges.
  assert (fst (AppForm.validateForm s) = true) as Hok.
  { apply (proj2 (validateForm_true_iff_valid s)).
    split; [vm_compute; discriminate |]. split; [vm_compute; discriminate | exact Hranges]. }
  rewrite Hrun in Hok. discriminate Hok.
Defined.

Section FormLookups.

Import AppForm.

Lemma lookup_if_insert_ne (c : bool) (k' m : string) (acc : gmap string string) k :
  k' <> k -> (if c then <[k' := m]> acc else acc) !! k = acc !! k.
Proof. intros Hne. destruct c; [apply lookup_insert_ne, Hne | reflexivity]. Qed.

Lemma lookup_if_insert_eq (c : bool) (k m : string) (acc : gmap string string) :
  (if c then <[k := m]> acc else acc) !! k = if c then Some m else acc !! k.
Proof. destruct c; [apply lookup_insert_eq | reflexivity]. Qed.

Lemma range_test (v hi : Z) (msg : string) (o : option string) :
  (if (v <? 0)%Z || (v >? hi)%Z then Some msg else o)
  = if decide (0 <= v <= hi)%Z then o else Some msg.
Proof.
  destruct (decide (0 <= v <= hi)%Z) as [Hin | Hout].
  - replace ((v <? 0)%Z || (v >? hi)%Z) with false; [reflexivity |].
    symmetry. apply orb_false_iff. rewrite Z.gtb_ltb, !Z.ltb_ge. lia.
  - replace ((v <? 0)%Z || (v >? hi)%Z) with true; [reflexivity |].
    symmetry. apply orb_true_iff. rewrite Z.gtb_ltb, !Z.ltb_lt. lia.
Qed.

Lemma perm_name_not_text f : perm_name f <> "app_name" /\ perm_name f <> "category".
Proof. destruct f; split; discriminate. Qed.

(** The map [validateForm] stores, as the five stages that build it. *)
Lemma validateForm_errors s :
  errors (snd (validateForm s))
  = let d := formData s in
    let e1 : gmap string string :=
      if negb (Js.truthy (Js.Str (Js.trim (AppData.app_name d))))
      then <["app_name" := "App name is required"]> ∅ else ∅ in
    let e2 :=
      if negb (Js.truthy (Js.Str (AppData.category d)))
      then <["category" := "App category is required"]> e1 else e1 in
    let e3 := check_range d 10 "Value must be between 0 and 10" permissionFields e2 in
    let e4 := check_range d 5 "Value must be between 0 and 5" binaryFields e3 in
    if (AppData.perm d K_perm_other <? 0)%Z || (AppData.perm d K_perm_other >? 50)%Z
    then <["perm_other" := "Value must be between 0 and 50"]> e4 else e4.
Proof. reflexivity. Qed.

End FormLookups.

(** X9. For a form whose permission counters are integers, the map
    [validateForm] stores has, for every field, the field's message
    exactly when the field breaks its rule, also when several fields do at
    once: "App name is required" under [app_name] iff the
    trimmed name is empty, "App category is required" under [category] iff
    the category is empty, and the range message under a permission key iff
    that counter is outside [0,10], [0,5] (camera, microphone, accounts) or
    [0,50] ([perm_other]). *)
Theorem validateForm_reports_each_field (s : AppForm.State) :
  let d := AppForm.formData s in
  let e := AppForm.errors (snd (AppForm.validateForm s)) in
  e !! "app_name"
  = (if decide (Js.trim (AppData.app_name d) = "") then Some "App name is required" else None)
  /\ e !! "category"
     = (if decide (AppData.category d = "") then Some "App category is required" else None)
  /\ (forall f, f ∈ AppForm.permissionFields ->
        e !! perm_name f
        = if decide (0 <= AppData.perm d f <= 10)%Z then None
          else Some "Value must be between 0 and 10")
  /\ (forall f, f ∈ AppForm.binaryFields ->
        e !! perm_name f
        = if decide (0 <= AppData.perm d f <= 5)%Z then None
          else Some "Value must be between 0 and 5")
  /\ e !! "perm_other"
     = (if decide (0 <= AppData.perm_other d <= 50)%Z then None
        else Some "Value must be between 0 and 50").
Proof.
  intros d e. subst e. rewrite validateForm_errors. fold d. cbv zeta.
  assert (forall x : string, negb (Js.truthy (Js.Str x)) = bool_decide (x = "")) as Hempty.
  { intros x. cbn. rewrite negb_involutive.
    destruct (String.eqb_spec x "") as [-> | Hne].
    - rewrite bool_decide_eq_true_2; reflexivity.
    - rewrite bool_decide_eq_false_2 by exact Hne. reflexivity. }
  rewrite !Hempty.
  assert (forall f g, f <> g -> perm_name f <> perm_name g) as Hnames
    by (intros f g Hne Heq; apply Hne, perm_name_inj, Heq).
  split; [| split; [| split; [| split]]].
  - rewrite lookup_if_insert_ne by discriminate.
    rewrite !check_range_lookup_out by (intros f _; apply perm_name_not_text).
    rewrite lookup_if_insert_ne by discriminate.
    rewrite lookup_if_insert_eq, lookup_empty.
    destruct (decide _) as [Hd | Hd];
      [rewrite bool_decide_eq_true_2 by exact Hd | rewrite bool_decide_eq_false_2 by exact Hd];
      reflexivity.
  - rewrite lookup_if_insert_ne by discriminate.
    rewrite !check_range_lookup_out by (intros f _; apply perm_name_not_text).
    rewrite lookup_if_insert_eq.
    rewrite lookup_if_insert_ne by discriminate. rewrite lookup_empty.
    destruct (decide _) as [Hd | Hd];
      [rewrite bool_decide_eq_true_2 by exact Hd | rewrite bool_decide_eq_false_2 by exact Hd];
      reflexivity.
  - intros f Hf. destruct (general_field_apart f Hf) as [Hnb Hno].
    rewrite lookup_if_insert_ne by (apply (Hnames K_perm_other f); congruence).
    rewrite check_range_lookup_out
      by (intros g Hg Heq; apply perm_name_inj in Heq; subst g; contradiction).
    rewrite check_range_lookup_in by (auto using NoDup_permissionFields).
    rewrite !lookup_if_insert_ne
      by (intros Heq; symmetry in Heq; revert Heq; apply perm_name_not_text).
    rewrite lookup_empty. apply range_test.
  - intros f Hf. destruct (binary_field_apart f Hf) as [Hng Hno].
    rewrite lookup_if_insert_ne by (apply (Hnames K_perm_other f); congruence).
    rewrite check_range_lookup_in by (auto using NoDup_binaryFields).
    rewrite check_range_lookup_out
      by (intros g Hg Heq; apply perm_name_inj in Heq; subst g; contradiction).
    rewrite !lookup_if_insert_ne
      by (intros Heq; symmetry in Heq; revert Heq; apply perm_name_not_text).
    rewrite lookup_empty. apply range_test.
  - destruct other_field_apart as [Hng Hnb].
    rewrite (lookup_if_insert_eq _ "perm_other").
    rewrite !check_range_lookup_out
      by (intros g Hg Heq; apply (perm_name_inj g K_perm_other) in Heq; subst g; contradiction).
    rewrite !lookup_if_insert_ne by discriminate. rewrite lookup_empty.
    apply (range_test (AppData.perm d K_perm_other) 50).
Qed.

Lemma validateForm_reports_each_field_witness :
  let s := AppForm.useAppForm
             [AppForm.SetText K_category "Other"; AppForm.SetPerm K_perm_sms 12;
              AppForm.SetPerm K_perm_camera 7] in
  let e := AppForm.errors (snd (AppForm.validateForm s)) in
  e !! "perm_sms" = Some "Value must be between 0 and 10"
  /\ e !! "perm_camera" = Some "Value must be between 0 and 5"
  /\ e !! "perm_phone" = None.
Proof.
  intros s e.
  destruct (validateForm_reports_each_field s) as (_ & _ & Hgeneral & Hbinary & _).
  split; [| split].
  - apply (Hgeneral K_perm_sms). unfold AppForm.permissionFields. set_solver.
  - apply (Hbinary K_perm_camera). unfold AppForm.binaryFields. set_solver.
  - apply (Hgeneral K_perm_phone). unfold AppForm.permissionFields. set_solver.
Defined.

(** X10. [updateField] sets one field and touches at most one error, and
    whether it clears that error is decided by the errors map of the
    render that built it, not by the latest state.  The error stored under
    every other key is as before.  If the rendered map held an error for
    the field, none is stored for it afterwards; if it held none, the
    stored map is unchanged, so an error that [validateForm] stored
    earlier in the same handler stays.  Called on the state as rendered it
    leaves no error reported for the field.  For a permission update the
    updated counter holds the new value and every other counter and both
    texts keep theirs. *)
Theorem updateField_touches_one_field (rendered : gmap string string)
    (u : AppForm.FieldUpdate) (s : AppForm.State) :
  (forall k, k <> AppForm.update_name u ->
     AppForm.errors (AppForm.updateField_in rendered u s) !! k = AppForm.errors s !! k)
  /\ (AppForm.has_error rendered (AppForm.update_name u) = true ->
      AppForm.errors (AppForm.updateField_in rendered u s) !! AppForm.update_name u = None)
  /\ (AppForm.has_error rendered (AppForm.update_name u) = false ->
      AppForm.errors (AppForm.updateField_in rendered u s) = AppForm.errors s)
  /\ AppForm.has_error (AppForm.errors (AppForm.updateField u s)) (AppForm.update_name u)
     = false
  /\ (forall f v, u = AppForm.SetPerm f v ->
        let d' := AppForm.formData (AppForm.updateField_in rendered u s) in
        AppData.perm d' f = v
        /\ (forall g, g <> f -> AppData.perm d' g = AppData.perm (AppForm.formData s) g)
        /\ AppData.app_name d' = AppData.app_name (AppForm.formData s)
        /\ AppData.category d' = AppData.category (AppForm.formData s)).
Proof.
  split; [| split; [| split; [| split]]].
  - intros k Hk. unfold AppForm.updateField_in. cbn [AppForm.errors].
    destruct (AppForm.has_error _ _); [| reflexivity].
    apply lookup_delete_ne. congruence.
  - intros Hhad. unfold AppForm.updateField_in. cbn [AppForm.errors].
    rewrite Hhad. apply lookup_delete_eq.
  - intros Hnone. unfold AppForm.updateField_in. cbn [AppForm.errors].
    rewrite Hnone. reflexivity.
  - unfold AppForm.updateField, AppForm.updateField_in. cbn [AppForm.errors].
    destruct (AppForm.has_error (AppForm.errors s) (AppForm.update_name u)) eqn:Hhas.
    + unfold AppForm.has_error. rewrite lookup_delete_eq. reflexivity.
    + exact Hhas.
  - intros f v -> d'. subst d'.
    cbn [AppForm.updateField_in AppForm.formData AppForm.apply_update].
    split; [apply perm_set_perm_eq |].
    split; [intros g Hg; apply perm_set_perm_ne; congruence |].
    split; reflexivity.
Qed.

Lemma updateField_touches_one_field_witness :
  let rendered := AppForm.useAppForm [AppForm.SetPerm K_perm_sms 12;
                                      AppForm.SetPerm K_perm_camera 7] in
  let validated := snd (AppForm.validateForm rendered) in
  let same_handler :=
    AppForm.updateField_in (AppForm.errors rendered) (AppForm.SetPerm K_perm_sms 3) validated in
  let next_render := AppForm.updateField (AppForm.SetPerm K_perm_sms 3) validated in
  AppForm.errors same_handler !! "perm_sms" = Some "Value must be between 0 and 10"
  /\ AppData.perm_sms (AppForm.formData same_handler) = 3%Z
  /\ AppForm.errors next_render !! "perm_sms" = None
  /\ AppForm.errors next_render !! "perm_camera" = Some "Value must be between 0 and 5"
  /\ AppData.perm_camera (AppForm.formData next_render) = 7%Z.
Proof.
  intros rendered validated same_handler next_render.
  destruct (updateField_touches_one_field (AppForm.errors rendered)
              (AppForm.SetPerm K_perm_sms 3) validated)
    as (_ & _ & Hstale & _ & Hdata).
  destruct (updateField_touches_one_field (AppForm.errors validated)
              (AppForm.SetPerm K_perm_sms 3) validated)
    as (Hkept & Hcleared & _ & _ & Hdata').
  split; [| split; [| split; [| split]]].
  - subst same_handler. rewrite Hstale by reflexivity. vm_compute. reflexivity.
  - destruct (Hdata K_perm_sms 3%Z eq_refl) as (Hnew & _). exact Hnew.
  - apply Hcleared. vm_compute. reflexivity.
  - subst next_render. unfold AppForm.updateField.
    rewrite (Hkept "perm_camera") by discriminate. vm_compute. reflexivity.
  - destruct (Hdata' K_perm_sms 3%Z eq_refl) as (_ & Hothers & _).
    exact (Hothers K_perm_camera ltac:(discriminate)).
Defined.

(** X11. [updateMultipleFields] clears no error.  While the stored errors
    map is non-empty, [isValid] stays false after it, whatever the update
    repairs, until [validateForm] runs again. *)
Theorem updateMultipleFields_keeps_errors (updates : list AppForm.FieldUpdate)
    (s : AppForm.State) :
  AppForm.errors (AppForm.updateMultipleFields updates s) = AppForm.errors s
  /\ (AppForm.errors s <> ∅ ->
      AppForm.isValid (AppForm.updateMultipleFields updates s) = Js.Bool false
      /\ Js.truthy (AppForm.isValid (AppForm.updateMultipleFields updates s)) = false).
Proof.
  split; [reflexivity |].
  intros Herrors. unfold AppForm.isValid.
  cbn [AppForm.updateMultipleFields AppForm.errors].
  destruct (Nat.eqb (length (AppForm.object_keys (AppForm.errors s))) 0) eqn:Hkeys.
  - apply no_keys_iff in Hkeys. contradiction.
  - split; reflexivity.
Qed.

Lemma updateMultipleFields_keeps_errors_witness :
  let rejected := snd (AppForm.validateForm (AppForm.useAppForm [])) in
  let repaired :=
    AppForm.updateMultipleFields
      [AppForm.SetText K_app_name "Maps"; AppForm.SetText K_category "Other"] rejected in
  Js.truthy (AppForm.isValid repaired) = false
  /\ fst (AppForm.validateForm repaired) = true.
Proof.
  intros rejected repaired.
  destruct (updateMultipleFields_keeps_errors
              [AppForm.SetText K_app_name "Maps"; AppForm.SetText K_category "Other"] rejected)
    as [_ Hstale].
  split.
  - apply Hstale. intros Hempty.
    apply (f_equal (fun e : gmap string string => e !! "app_name")) in Hempty.
    vm_compute in Hempty. discriminate Hempty.
  - vm_compute. reflexivity.
Defined.

(** X12. For a form whose permission counters are integers within their
    ranges, [totalPermissions] lies between 0 and 155, and it is at least
    1 whenever [hasHighRiskPermissions] holds. *)
Theorem totalPermissions_bounds (s : AppForm.State) :
  AppForm.ranges_ok (AppForm.formData s) ->
  (0 <= AppForm.totalPermissions s <= 155)%Z
  /\ (AppForm.hasHighRiskPermissions s = true -> (1 <= AppForm.totalPermissions s)%Z).
Proof.
  intros (H10 & H5 & Hother).
  unfold AppForm.permissionFields in H10. unfold AppForm.binaryFields in H5.
  repeat (apply Forall_cons in H10 as [? H10]).
  repeat (apply Forall_cons in H5 as [? H5]).
  unfold AppForm.totalPermissions, AppForm.hasHighRiskPermissions.
  cbn [AppForm.all_perm_fields fold_left] in *.
  cbn [AppData.perm] in *.
  split; [lia |].
  intros Hrisk. rewrite !orb_true_iff, !Z.gtb_ltb, !Z.ltb_lt in Hrisk. lia.
Qed.

Lemma totalPermissions_bounds_witness :
  let s := AppForm.useAppForm [AppForm.SetPerm K_perm_camera 2] in
  (1 <= AppForm.totalPermissions s <= 155)%Z.
Proof.
  intros s.
  assert (AppForm.ranges_ok (AppForm.formData s)) as Hr.
  { repeat split; repeat constructor; vm_compute; discriminate. }
  destruct (totalPermissions_bounds s Hr) as [[_ Hhi] Hrisk].
  split; [apply Hrisk; reflexivity | exact Hhi].
Defined.

(** ** The history hook *)

(** X13. Adding an entry and then removing it by its timestamp is an undo
    only while the history holds fewer than 10 entries: if no other entry
    shares the timestamp, what is left is the first nine of the earlier
    entries, so on a full history the oldest entry is lost for good. *)
Theorem add_then_remove (p : PredictionResult.t) (h : list PredictionResult.t) :
  Forall (fun q => PredictionResult.timestamp q <> PredictionResult.timestamp p) h ->
  History.removePrediction (PredictionResult.timestamp p) (History.addPrediction p h)
  = take 9 h
  /\ (length h <= 9 ->
      History.removePrediction (PredictionResult.timestamp p) (History.addPrediction p h) = h)
  /\ (length h = 10 ->
      exists kept oldest,
        h = kept ++ [oldest]
        /\ History.removePrediction (PredictionResult.timestamp p)
             (History.addPrediction p h) = kept).
Proof.
  intros Hfresh.
  assert (History.removePrediction (PredictionResult.timestamp p) (History.addPrediction p h)
          = take 9 h) as Hrun.
  { unfold History.addPrediction. rewrite removePrediction_cons, String.eqb_refl.
    apply removePrediction_none. apply Forall_take. exact Hfresh. }
  split; [exact Hrun |]. split.
  - intros Hlen. rewrite Hrun. apply take_ge. exact Hlen.
  - intros Hlen. destruct (exists_last (l := h)) as (kept & oldest & ->).
    { intros ->. discriminate Hlen. }
    rewrite length_app in Hlen. cbn in Hlen.
    exists kept, oldest. split; [reflexivity |].
    rewrite Hrun. apply take_app_length'. lia.
Qed.

Lemma add_then_remove_witness :
  let entry (ts : string) :=
    {| PredictionResult.app_name := "Maps"; PredictionResult.privacy_level := "LOW";
       PredictionResult.privacy_score := 0; PredictionResult.confidence := 1;
       PredictionResult.level_probabilities := [];
       PredictionResult.risk_assessment := ""; PredictionResult.key_risk_factors := [];
       PredictionResult.recommendations := []; PredictionResult.timestamp := ts |} in
  let full := map entry ["10"; "9"; "8"; "7"; "6"; "5"; "4"; "3"; "2"; "1"] in
  History.removePrediction "11" (History.addPrediction (entry "11") full)
  = map entry ["10"; "9"; "8"; "7"; "6"; "5"; "4"; "3"; "2"].
Proof.
  intros entry full.
  assert (Forall (fun q => PredictionResult.timestamp q
                           <> PredictionResult.timestamp (entry "11")) full) as Hfresh
    by (repeat constructor; cbn; discriminate).
  destruct (add_then_remove (entry "11") full Hfresh) as (Hrun & _ & _).
  exact Hrun.
Defined.

(** X14. Removing by timestamp never lengthens the history, removing the
    same timestamp again changes nothing, and removals by two timestamps
    can be done in either order. *)
Theorem removePrediction_composes (a b : string) (h : list PredictionResult.t) :
  length (History.removePrediction a h) <= length h
  /\ History.removePrediction a (History.removePrediction a h) = History.removePrediction a h
  /\ History.removePrediction a (History.removePrediction b h)
     = History.removePrediction b (History.removePrediction a h).
Proof.
  split; [apply sublist_length, removePrediction_sublist |].
  split.
  - induction h as [| p h IH]; [reflexivity |].
    rewrite removePrediction_cons.
    destruct (String.eqb (PredictionResult.timestamp p) a) eqn:Hp; [exact IH |].
    rewrite removePrediction_cons, Hp, IH. reflexivity.
  - induction h as [| p h IH]; [reflexivity |].
    rewrite !(removePrediction_cons _ p h).
    destruct (String.eqb (PredictionResult.timestamp p) a) eqn:Ha,
             (String.eqb (PredictionResult.timestamp p) b) eqn:Hb;
      rewrite ?removePrediction_cons, ?Ha, ?Hb, IH; reflexivity.
Qed.

(** ** The Permissions Checker page *)

Section TogglesMore.

Import PermissionsChecker.

Lemma flip_flip p : flip (flip p) = p.
Proof. destruct p. unfold flip. cbn. rewrite negb_involutive. reflexivity. Qed.

Lemma alter_flip_twice (l : list Permission) r : alter flip r (alter flip r l) = l.
Proof.
  apply list_eq. intros j. destruct (decide (r = j)) as [<- | Hne].
  - rewrite !list_lookup_alter_eq. destruct (l !! r); cbn; [rewrite flip_flip |]; reflexivity.
  - rewrite !list_lookup_alter_ne by exact Hne. reflexivity.
Qed.

Lemma alter_flip_commute (l : list Permission) r1 r2 :
  alter flip r1 (alter flip r2 l) = alter flip r2 (alter flip r1 l).
Proof.
  destruct (decide (r1 = r2)) as [-> | Hne]; [reflexivity |].
  apply list_eq. intros j.
  destruct (decide (r1 = j)) as [<- | H1].
  - rewrite list_lookup_alter_eq, !(list_lookup_alter_ne _ _ r2 r1) by congruence.
    rewrite list_lookup_alter_eq. reflexivity.
  - rewrite (list_lookup_alter_ne _ _ r1 j) by exact H1.
    destruct (decide (r2 = j)) as [<- | H2].
    + rewrite !list_lookup_alter_eq, list_lookup_alter_ne by exact H1. reflexivity.
    + rewrite !list_lookup_alter_ne by assumption. reflexivity.
Qed.

(** Every switched field of the payload is 0 or 1. *)
Lemma switch_bit st k : switch st k = 0%Z \/ switch st k = 1%Z.
Proof.
  unfold switch. destruct (List.find _ _) as [p |]; [| left; reflexivity].
  destruct (enabled p); [right | left]; reflexivity.
Qed.

End TogglesMore.

(** X15. A toggle at an index outside the list throws a TypeError and so
    sets no state; inside the list, toggling the same index twice brings
    the page back to the state it was in. *)
Theorem togglePermission_bounds_and_undo (st : PermissionsChecker.State) (index : nat) :
  (length (PermissionsChecker.permissions st) <= index ->
   exists text, PermissionsChecker.togglePermission index st = inl (ThrownError text))
  /\ (index < length (PermissionsChecker.permissions st) ->
      exists st',
        PermissionsChecker.togglePermission index st = inr st'
        /\ PermissionsChecker.togglePermission index st' = inr st).
Proof.
  unfold PermissionsChecker.togglePermission. split.
  - intros Hout. rewrite (lookup_ge_None_2 _ _ Hout). eexists. reflexivity.
  - intros Hin. destruct (lookup_lt_is_Some_2 _ _ Hin) as [r Hr]. rewrite Hr.
    eexists. split; [reflexivity |].
    cbn [PermissionsChecker.permissions PermissionsChecker.objects
         PermissionsChecker.appName PermissionsChecker.category PermissionsChecker.hasAds
         PermissionsChecker.hasIAP PermissionsChecker.isFree PermissionsChecker.isGame
         PermissionsChecker.isSocial].
    rewrite Hr, alter_flip_twice. destruct st; reflexivity.
Qed.

Lemma togglePermission_bounds_and_undo_witness :
  (exists text,
      PermissionsChecker.togglePermission 12 PermissionsChecker.initial
      = inl (ThrownError text))
  /\ (exists st',
         PermissionsChecker.togglePermission 3 PermissionsChecker.initial = inr st'
         /\ PermissionsChecker.togglePermission 3 st' = inr PermissionsChecker.initial).
Proof.
  destruct (togglePermission_bounds_and_undo PermissionsChecker.initial 12) as [Hout _].
  destruct (togglePermission_bounds_and_undo PermissionsChecker.initial 3) as [_ Hin].
  split; [apply Hout | apply Hin]; cbn; lia.
Defined.

(** X16. Toggles commute: two toggles reach the same page state in either
    order. *)
Theorem togglePermission_commutes (st : PermissionsChecker.State) (i j : nat) :
  i < length (PermissionsChecker.permissions st) ->
  j < length (PermissionsChecker.permissions st) ->
  exists si sj sij,
    PermissionsChecker.togglePermission i st = inr si
    /\ PermissionsChecker.togglePermission j st = inr sj
    /\ PermissionsChecker.togglePermission j si = inr sij
    /\ PermissionsChecker.togglePermission i sj = inr sij.
Proof.
  intros Hi Hj. unfold PermissionsChecker.togglePermission.
  destruct (lookup_lt_is_Some_2 _ _ Hi) as [ri Hri].
  destruct (lookup_lt_is_Some_2 _ _ Hj) as [rj Hrj].
  rewrite Hri, Hrj. do 3 eexists.
  split; [reflexivity |]. split; [reflexivity |].
  cbn [PermissionsChecker.permissions PermissionsChecker.objects
       PermissionsChecker.appName PermissionsChecker.category PermissionsChecker.hasAds
       PermissionsChecker.hasIAP PermissionsChecker.isFree PermissionsChecker.isGame
       PermissionsChecker.isSocial].
  rewrite Hri, Hrj. split; [reflexivity |].
  rewrite (alter_flip_commute _ ri rj). reflexivity.
Qed.

Lemma togglePermission_commutes_witness :
  exists si sj sij,
    PermissionsChecker.togglePermission 0 PermissionsChecker.initial = inr si
    /\ PermissionsChecker.togglePermission 8 PermissionsChecker.initial = inr sj
    /\ PermissionsChecker.togglePermission 8 si = inr sij
    /\ PermissionsChecker.togglePermission 0 sj = inr sij.
Proof.
  apply (togglePermission_commutes PermissionsChecker.initial 0 8); cbn; lia.
Defined.

(** X17. The payload the Permissions Checker builds always meets the form
    hook's rules: every switched counter is 0 or 1 and [perm_other] is 0,
    so with a name that is non-empty after trimming and a non-empty
    category [validateForm] accepts it. *)
Theorem appData_passes_validation (st : PermissionsChecker.State)
    (stale : gmap string string) :
  (forall f, AppData.perm (PermissionsChecker.appData st) f = 0%Z
             \/ AppData.perm (PermissionsChecker.appData st) f = 1%Z)
  /\ AppForm.ranges_ok (PermissionsChecker.appData st)
  /\ (Js.trim (PermissionsChecker.appName st) <> "" ->
      PermissionsChecker.category st <> "" ->
      fst (AppForm.validateForm
             {| AppForm.formData := PermissionsChecker.appData st;
                AppForm.errors := stale |}) = true).
Proof.
  assert (forall f, AppData.perm (PermissionsChecker.appData st) f = 0%Z
                    \/ AppData.perm (PermissionsChecker.appData st) f = 1%Z) as Hbits.
  { intros f. destruct f; cbn [AppData.perm PermissionsChecker.appData
      AppData.perm_location AppData.perm_camera AppData.perm_microphone
      AppData.perm_contacts AppData.perm_phone AppData.perm_sms AppData.perm_storage
      AppData.perm_calendar AppData.perm_network AppData.perm_device_info
      AppData.perm_accounts AppData.perm_system AppData.perm_other];
      try apply switch_bit. left. reflexivity. }
  assert (AppForm.ranges_ok (PermissionsChecker.appData st)) as Hranges.
  { split; [| split].
    - apply Forall_forall. intros f _. destruct (Hbits f) as [-> | ->]; lia.
    - apply Forall_forall. intros f _. destruct (Hbits f) as [-> | ->]; lia.
    - cbn. lia. }
  split; [exact Hbits |]. split; [exact Hranges |].
  intros Hname Hcat. rewrite validateForm_accepts; [reflexivity | | |]; assumption.
Qed.

Lemma appData_passes_validation_witness :
  let st := {| PermissionsChecker.appName := "Maps";
               PermissionsChecker.category := "Social";
               PermissionsChecker.hasAds := false; PermissionsChecker.hasIAP := false;
               PermissionsChecker.isFree := true; PermissionsChecker.isGame := false;
               PermissionsChecker.isSocial := false;
               PermissionsChecker.objects := PermissionsChecker.seed;
               PermissionsChecker.permissions := seq 0 12 |} in
  fst (AppForm.validateForm
         {| AppForm.formData := PermissionsChecker.appData st; AppForm.errors := ∅ |}) = true.
Proof.
  intros st.
  destruct (appData_passes_validation st ∅) as (_ & _ & Haccepts).
  apply Haccepts; vm_compute; discriminate.
Defined.

Section SubmitMore.

Variable fetch : Request -> Thrown + Response.t.

(** What the prediction call of a page can settle to, with the log entry
    the page adds for it. *)
Lemma predict_call_outcome appData s evs :
  let call := fst (predictPrivacy fetch privacyApi appData
                     {| slots := pending true s; log := evs |}) in
  (exists result,
      call = inr result
      /\ settled true s call
         = {| Hook.data := Some result; Hook.loading := false; Hook.error := None |})
  \/ (exists e,
         call = inl (ThrownApi e)
         /\ settled true s call
            = {| Hook.data := None; Hook.loading := false;
                 Hook.error := Some (ThrownApi e) |}).
Proof.
  intros call. subst call. unfold predictPrivacy.
  destruct (makeRequest_run fetch privacyApi "/predict"
              {| method := Some "POST"; headers := None; body := Some appData |}
              {| slots := pending true s; log := evs |}) as (r & Hrun & Hr).
  rewrite Hrun. cbn [fst].
  destruct r as [[e | text |] | result]; try contradiction; [right | left];
    eexists; split; reflexivity.
Qed.

Lemma handleSearch_run appInput s evs :
  Js.trim appInput <> "" ->
  let call := predictPrivacy fetch privacyApi (SimplePrivacyChecker.basicAppData appInput)
                {| slots := pending true s; log := evs |} in
  SimplePrivacyChecker.handleSearch fetch appInput {| slots := s; log := evs |}
  = (inr tt,
     {| slots := settled true s (fst call);
        log := evs
               ++ [Fetched {| url := "http://localhost:8003/predict";
                              init := {| method := Some "POST";
                                         headers := Some [("Content-Type", "application/json")];
                                         body := Some (SimplePrivacyChecker.basicAppData
                                                         appInput) |} |};
                   Rendered (pending true s)]
               ++ match fst call with
                  | inl err => [ConsoleError "Prediction failed:" err]
                  | inr _ => []
                  end |}).
Proof.
  intros Hname call. unfold SimplePrivacyChecker.handleSearch.
  apply truthy_Str in Hname. rewrite Hname. cbn [negb].
  async_unfold. rewrite predict_run. fold call.
  assert (log (snd call)
          = evs ++ [Fetched {| url := "http://localhost:8003/predict";
                               init := {| method := Some "POST";
                                          headers := Some [("Content-Type", "application/json")];
                                          body := Some (SimplePrivacyChecker.basicAppData
                                                          appInput) |} |};
                    Rendered (pending true s)]) as Hlog.
  { subst call. unfold predictPrivacy. rewrite client_log. reflexivity. }
  rewrite Hlog. destruct (fst call) as [err | result]; cbn.
  - rewrite <- app_assoc. reflexivity.
  - reflexivity.
Qed.

End SubmitMore.

(** X18. A submit on the Permissions Checker page never throws into the
    page.  Through the enabled button it raises no alert: it sends one
    request, ends with [loading] off, and a failed prediction ends up both
    in the hook's error slot and on the console. *)
Theorem handleCalculateRisk_is_guarded (fetch : Request -> Thrown + Response.t)
    (st : PermissionsChecker.State) (s : Hook.State) (evs : list Event) :
  let run := PermissionsChecker.handleCalculateRisk fetch st {| slots := s; log := evs |} in
  fst run = inr tt
  /\ (PermissionsChecker.button_disabled (Hook.loading s) st = false ->
      Hook.loading (slots (snd run)) = false
      /\ exists sent after,
           log (snd run) = evs ++ [Fetched sent; Rendered (pending true s)] ++ after
           /\ body (init sent) = Some (PermissionsChecker.appData st)
           /\ ((after = [] /\ Hook.error (slots (snd run)) = None)
               \/ exists e,
                    after = [ConsoleError "Prediction failed:" (ThrownApi e)]
                    /\ Hook.error (slots (snd run)) = Some (ThrownApi e))).
Proof.
  intros run. subst run.
  destruct (decide (Js.trim (PermissionsChecker.appName st) = "")) as [Hblank | Hname].
  - rewrite handleCalculateRisk_blank by exact Hblank. split; [reflexivity |].
    unfold PermissionsChecker.button_disabled. rewrite Hblank.
    rewrite orb_true_r. discriminate.
  - rewrite handleCalculateRisk_run by exact Hname. split; [reflexivity |].
    intros _. cbn [snd slots log].
    destruct (predict_call_outcome fetch (PermissionsChecker.appData st) s evs)
      as [(result & -> & ->) | (e & -> & ->)].
    + split; [reflexivity |]. do 2 eexists. split; [reflexivity |].
      split; [reflexivity |]. left. split; reflexivity.
    + split; [reflexivity |]. do 2 eexists. split; [reflexivity |].
      split; [reflexivity |]. right. eexists. split; reflexivity.
Qed.

Lemma handleCalculateRisk_is_guarded_witness :
  let st := {| PermissionsChecker.appName := "Maps";
               PermissionsChecker.category := "Social";
               PermissionsChecker.hasAds := false; PermissionsChecker.hasIAP := false;
               PermissionsChecker.isFree := true; PermissionsChecker.isGame := false;
               PermissionsChecker.isSocial := false;
               PermissionsChecker.objects := PermissionsChecker.seed;
               PermissionsChecker.permissions := seq 0 12 |} in
  let run := PermissionsChecker.handleCalculateRisk
               (fun _ => inl (ThrownError "Failed to fetch")) st
               {| slots := Hook.initial; log := [] |} in
  Hook.loading (slots (snd run)) = false.
Proof.
  intros st run.
  destruct (handleCalculateRisk_is_guarded (fun _ => inl (ThrownError "Failed to fetch")) st
              Hook.initial []) as [_ Henabled].
  apply Henabled. vm_compute. reflexivity.
Defined.

(** X19. A search on the Simple Privacy Checker with an input that is
    empty after trimming does nothing at all.  Otherwise it never throws
    into the page and sends one [POST /predict] whose payload has the
    trimmed input as [app_name], category "Social" and the fixed defaults;
    it ends with [loading] off.  A key press other than Enter does
    nothing, and Enter is a search. *)
Theorem handleSearch_behaviour (fetch : Request -> Thrown + Response.t)
    (appInput : string) (s : Hook.State) (evs : list Event) :
  let w := {| slots := s; log := evs |} in
  (Js.trim appInput = "" -> SimplePrivacyChecker.handleSearch fetch appInput w = (inr tt, w))
  /\ (Js.trim appInput <> "" ->
      let run := SimplePrivacyChecker.handleSearch fetch appInput w in
      fst run = inr tt
      /\ Hook.loading (slots (snd run)) = false
      /\ requests (log (snd run))
         = requests evs
           ++ [ {| url := "http://localhost:8003/predict";
                   init := {| method := Some "POST";
                              headers := Some [("Content-Type", "application/json")];
                              body := Some (AppData.set_text K_category "Social"
                                              (AppData.set_text K_app_name (Js.trim appInput)
                                                 AppForm.defaults)) |} |} ])
  /\ (forall key, key <> "Enter" ->
        SimplePrivacyChecker.handleKeyPress fetch key appInput w = (inr tt, w))
  /\ SimplePrivacyChecker.handleKeyPress fetch "Enter" appInput w
     = SimplePrivacyChecker.handleSearch fetch appInput w.
Proof.
  intros w. subst w. split; [| split; [| split]].
  - intros Hblank. unfold SimplePrivacyChecker.handleSearch. rewrite Hblank. reflexivity.
  - intros Hname run. subst run. rewrite handleSearch_run by exact Hname.
    cbn [fst snd slots log]. split; [reflexivity |]. split.
    + destruct (predict_call_outcome fetch (SimplePrivacyChecker.basicAppData appInput) s evs)
        as [(result & _ & ->) | (e & _ & ->)]; reflexivity.
    + rewrite !requests_app. cbn. destruct (fst _); reflexivity.
  - intros key Hkey. unfold SimplePrivacyChecker.handleKeyPress.
    apply String.eqb_neq in Hkey. rewrite Hkey. reflexivity.
  - reflexivity.
Qed.

Lemma handleSearch_behaviour_witness :
  let fetch : Request -> Thrown + Response.t := fun _ => inl (ThrownError "Failed to fetch") in
  let w := {| slots := Hook.initial; log := [] |} in
  SimplePrivacyChecker.handleSearch fetch "   " w = (inr tt, w)
  /\ fst (SimplePrivacyChecker.handleSearch fetch " Maps " w) = inr tt
  /\ SimplePrivacyChecker.handleKeyPress fetch "a" "Maps" w = (inr tt, w).
Proof.
  intros fetch w.
  destruct (handleSearch_behaviour fetch "   " Hook.initial []) as (Hblank & _).
  destruct (handleSearch_behaviour fetch " Maps " Hook.initial []) as (_ & Hsearch & _).
  destruct (handleSearch_behaviour fetch "Maps" Hook.initial []) as (_ & _ & Hkey & _).
  split; [apply Hblank; vm_compute; reflexivity |].
  split; [apply Hsearch; vm_compute; discriminate |].
  apply Hkey. discriminate.
Defined.

(** ** Risk badges and score tiers *)

(** X20. On both calculator pages the risk icon and the risk badge agree
    for every level string: they use the same colour tone (green, yellow,
    orange, red, or gray for an unknown level), and the two pages draw the
    same glyph, at sizes 5 and 6. *)
Theorem risk_icon_matches_badge (level : string) :
  exists tone,
    tone ∈ ["green"; "yellow"; "orange"; "red"; "gray"]
    /\ SimplePrivacyChecker.getRiskColor level
       = "text-" +:+ tone +:+ "-600 bg-" +:+ tone +:+ "-100"
    /\ SimplePrivacyChecker.className (SimplePrivacyChecker.getRiskIcon level)
       = "h-5 w-5 text-" +:+ tone +:+ "-600"
    /\ SimplePrivacyChecker.className (PermissionsChecker.getRiskIcon level)
       = "h-6 w-6 text-" +:+ tone +:+ "-600"
    /\ SimplePrivacyChecker.glyph (PermissionsChecker.getRiskIcon level)
       = SimplePrivacyChecker.glyph (SimplePrivacyChecker.getRiskIcon level).
Proof.
  unfold SimplePrivacyChecker.getRiskColor, SimplePrivacyChecker.getRiskIcon,
    PermissionsChecker.getRiskIcon.
  destruct (String.eqb level "LOW");
    [exists "green"; split; [set_solver | repeat split] |].
  destruct (String.eqb level "MEDIUM");
    [exists "yellow"; split; [set_solver | repeat split] |].
  destruct (String.eqb level "HIGH");
    [exists "orange"; split; [set_solver | repeat split] |].
  destruct (String.eqb level "CRITICAL");
    [exists "red"; split; [set_solver | repeat split] |].
  exists "gray"; split; [set_solver | repeat split].
Qed.

(** X21. The Example Score Showcase colours and labels a score by the same
    three tiers: green and "Excellent Privacy" exactly from 80 up, accent
    and "Good Privacy" exactly from 60 up to (not including) 80,
    destructive and "Privacy Concerns" exactly below 60. *)
Theorem score_tiers_agree (score : Q) :
  (ExampleScore.getScoreColor score = "text-green-500" <-> Qle 80 score)
  /\ (ExampleScore.getScoreLabel score = "Excellent Privacy" <-> Qle 80 score)
  /\ (ExampleScore.getScoreColor score = "text-accent" <-> Qle 60 score /\ Qlt score 80)
  /\ (ExampleScore.getScoreLabel score = "Good Privacy" <-> Qle 60 score /\ Qlt score 80)
  /\ (ExampleScore.getScoreColor score = "text-destructive" <-> Qlt score 60)
  /\ (ExampleScore.getScoreLabel score = "Privacy Concerns" <-> Qlt score 60).
Proof.
  unfold ExampleScore.getScoreColor, ExampleScore.getScoreLabel.
  assert (Qle 60 80) as H6080 by (vm_compute; discriminate).
  destruct (Qle_bool 80 score) eqn:H80.
  - apply Qle_bool_iff in H80.
    assert (Qle 60 score) as H60 by (eapply Qle_trans; eassumption).
    repeat split; try discriminate; try (intros; assumption).
    + intros [_ Hlt]. destruct (Qlt_not_le _ _ Hlt H80).
    + intros [_ Hlt]. destruct (Qlt_not_le _ _ Hlt H80).
    + intros Hlt. destruct (Qlt_not_le _ _ Hlt H60).
    + intros Hlt. destruct (Qlt_not_le _ _ Hlt H60).
  - assert (Qlt score 80) as Hlt80.
    { apply Qnot_le_lt. intros Hle. apply Qle_bool_iff in Hle. congruence. }
    destruct (Qle_bool 60 score) eqn:H60.
    + apply Qle_bool_iff in H60.
      repeat split; try discriminate; try (intros; assumption).
      * intros Hle. destruct (Qlt_not_le _ _ Hlt80 Hle).
      * intros Hle. destruct (Qlt_not_le _ _ Hlt80 Hle).
      * intros Hlt. destruct (Qlt_not_le _ _ Hlt H60).
      * intros Hlt. destruct (Qlt_not_le _ _ Hlt H60).
    + assert (Qlt score 60) as Hlt60.
      { apply Qnot_le_lt. intros Hle. apply Qle_bool_iff in Hle. congruence. }
      repeat split; try discriminate; try (intros; assumption).
      * intros Hle. destruct (Qlt_not_le _ _ Hlt80 Hle).
      * intros Hle. destruct (Qlt_not_le _ _ Hlt80 Hle).
      * intros [Hle _]. destruct (Qlt_not_le _ _ Hlt60 Hle).
      * intros [Hle _]. destruct (Qlt_not_le _ _ Hlt60 Hle).
Qed.

Lemma score_tiers_agree_witness :
  ExampleScore.getScoreColor ExampleScore.score = "text-accent"
  /\ ExampleScore.getScoreLabel ExampleScore.score = "Good Privacy".
Proof.
  destruct (score_tiers_agree ExampleScore.score) as (_ & _ & Hcolor & Hlabel & _).
  assert (Qle 60 ExampleScore.score /\ Qlt ExampleScore.score 80) as Htier
    by (split; [vm_compute; discriminate | reflexivity]).
  split; [apply Hcolor | apply Hlabel]; exact Htier.
Defined.

(** ** The interactive Hero section *)

(** X22. A check from the Hero section with an input that is empty after
    trimming does nothing: no request, no change of state.  Otherwise it
    sends one POST to [/predict/simple] carrying the trimmed input as
    [app_name], shows the loading state with the previous result cleared
    meanwhile, and always ends with loading off and the input untouched.
    A key press other than Enter does nothing. *)
Theorem hero_check_lifecycle (fetch : Hero.SimpleRequest -> Thrown + Response.t)
    (st : Hero.State) :
  (Js.trim (Hero.appInput st) = "" -> Hero.checkPrivacyScore fetch st = (st, []))
  /\ (Js.trim (Hero.appInput st) <> "" ->
      Hero.isLoading (fst (Hero.checkPrivacyScore fetch st)) = false
      /\ Hero.appInput (fst (Hero.checkPrivacyScore fetch st)) = Hero.appInput st
      /\ snd (Hero.checkPrivacyScore fetch st)
         = [Hero.Sent {| Hero.url := "http://localhost:8003/predict/simple";
                         Hero.method := "POST";
                         Hero.headers := [("Content-Type", "application/json")];
                         Hero.app_name := Js.trim (Hero.appInput st) |};
            Hero.Shown {| Hero.appInput := Hero.appInput st; Hero.isLoading := true;
                          Hero.result := Js.Null |}]
      /\ Hero.button_disabled st = Hero.isLoading st)
  /\ (forall key, key <> "Enter" -> Hero.handleKeyPress fetch key st = (st, [])).
Proof.
  split; [| split].
  - intros Hblank. unfold Hero.checkPrivacyScore. rewrite Hblank. reflexivity.
  - intros Hname. apply truthy_Str in Hname.
    unfold Hero.checkPrivacyScore, Hero.button_disabled. rewrite Hname. cbn [negb fst snd].
    rewrite orb_false_r. repeat split.
  - intros key Hkey. unfold Hero.handleKeyPress.
    apply String.eqb_neq in Hkey. rewrite Hkey. reflexivity.
Qed.

Lemma hero_check_lifecycle_witness :
  let fetch : Hero.SimpleRequest -> Thrown + Response.t := fun _ => inl ThrownValue in
  let typed := {| Hero.appInput := " Maps "; Hero.isLoading := false;
                  Hero.result := Js.Null |} in
  Hero.checkPrivacyScore fetch Hero.initial = (Hero.initial, [])
  /\ Hero.isLoading (fst (Hero.checkPrivacyScore fetch typed)) = false
  /\ Hero.handleKeyPress fetch "a" typed = (typed, []).
Proof.
  intros fetch typed.
  destruct (hero_check_lifecycle fetch Hero.initial) as (Hblank & _).
  destruct (hero_check_lifecycle fetch typed) as (_ & Hrun & Hkey).
  split; [apply Hblank; reflexivity |].
  split; [apply Hrun; vm_compute; discriminate |].
  apply Hkey. discriminate.
Defined.



(** ** The Simple Privacy Checker as a whole *)

(** X24. On the Simple Privacy Checker a click on "Check Privacy Score"
    with a blank input leaves the component as it was.  With a non-blank
    input it leaves the input as typed and [loading] off, and the result
    block and the error banner are never up together: a shown result
    means no error is stored, and a stored error means no result is. *)
Theorem click_check_shows_result_or_error (fetch : Request -> Thrown + Response.t)
    (st : SimplePrivacyChecker.State) :
  (Js.trim (SimplePrivacyChecker.appInput st) = "" ->
   SimplePrivacyChecker.click_check fetch st = (st, []))
  /\ (Js.trim (SimplePrivacyChecker.appInput st) <> "" ->
      let st' := fst (SimplePrivacyChecker.click_check fetch st) in
      SimplePrivacyChecker.appInput st' = SimplePrivacyChecker.appInput st
      /\ Hook.loading (SimplePrivacyChecker.hook st') = false
      /\ (SimplePrivacyChecker.result_shown st' = true ->
          Hook.error (SimplePrivacyChecker.hook st') = None)
      /\ (Hook.error (SimplePrivacyChecker.hook st') <> None ->
          Hook.data (SimplePrivacyChecker.hook st') = None
          /\ SimplePrivacyChecker.result_shown st' = false)).
Proof.
  split.
  - intros Hblank. unfold SimplePrivacyChecker.click_check, SimplePrivacyChecker.handleSearch.
    rewrite Hblank. destruct st; reflexivity.
  - intros Hname st'. subst st'. unfold SimplePrivacyChecker.click_check.
    rewrite handleSearch_run by exact Hname. cbn [fst SimplePrivacyChecker.appInput
      SimplePrivacyChecker.hook slots].
    unfold SimplePrivacyChecker.result_shown. cbn [SimplePrivacyChecker.hook].
    destruct (predict_call_outcome fetch
                (SimplePrivacyChecker.basicAppData (SimplePrivacyChecker.appInput st))
                (SimplePrivacyChecker.hook st) [])
      as [(result & _ & ->) | (e & _ & ->)]; cbn.
    + split; [reflexivity |]. split; [reflexivity |]. split; [reflexivity |].
      intros Herror. congruence.
    + split; [reflexivity |]. split; [reflexivity |]. split; [discriminate |].
      intros _. split; reflexivity.
Qed.

Lemma click_check_shows_result_or_error_witness :
  let fetch : Request -> Thrown + Response.t := fun _ => inl (ThrownError "Failed to fetch") in
  let shown := {| SimplePrivacyChecker.appInput := "Maps";
                  SimplePrivacyChecker.hook :=
                    {| Hook.data := Some (Js.Obj [("app_name", Js.Str "Mail")]);
                       Hook.loading := false; Hook.error := None |} |} in
  SimplePrivacyChecker.click_check fetch SimplePrivacyChecker.initial
  = (SimplePrivacyChecker.initial, [])
  /\ SimplePrivacyChecker.result_shown (fst (SimplePrivacyChecker.click_check fetch shown))
     = false.
Proof.
  intros fetch shown.
  destruct (click_check_shows_result_or_error fetch SimplePrivacyChecker.initial)
    as [Hblank _].
  destruct (click_check_shows_result_or_error fetch shown) as [_ Hrun].
  split; [apply Hblank; reflexivity |].
  destruct Hrun as (_ & _ & _ & Herror); [vm_compute; discriminate |].
  apply Herror. vm_compute. discriminate.
Defined.

(** ** Sequential triggers *)

Lemma makeRequest_result_ignores_world (fetch : Request -> Thrown + Response.t)
    (this : PrivacyApiClient) endpoint options w w' :
  fst (makeRequest fetch this endpoint options w)
  = fst (makeRequest fetch this endpoint options w').
Proof.
  unfold makeRequest. async_unfold.
  destruct (fetch _) as [[e | text |] | response]; cbn; try reflexivity.
  destruct (Response.ok response); cbn.
  - destruct (Response.json response) as [[e | text |] | value]; reflexivity.
  - destruct (Response.json response) as [e | parsed]; cbn.
    + reflexivity.
    + destruct (Js.prop parsed "detail") as [detail |]; cbn; [| reflexivity].
      destruct (Js.truthy detail); cbn; [reflexivity |].
      destruct (Js.prop parsed "message"); reflexivity.
Qed.

(** X25. The prediction hook carries nothing over from before a trigger:
    what [predict] returns or throws and the slots it leaves are the same
    whatever result, error or loading flag the hook held when it was
    triggered.  So of two triggers in a row only the second shows. *)
Theorem predict_forgets_earlier_state (fetch : Request -> Thrown + Response.t)
    (appData : AppData.t) (s1 s2 : Hook.State) (evs1 evs2 : list Event) :
  fst (predict fetch appData {| slots := s1; log := evs1 |})
  = fst (predict fetch appData {| slots := s2; log := evs2 |})
  /\ slots (snd (predict fetch appData {| slots := s1; log := evs1 |}))
     = slots (snd (predict fetch appData {| slots := s2; log := evs2 |})).
Proof.
  rewrite !predict_run. cbn [fst snd slots]. unfold predictPrivacy.
  rewrite (makeRequest_result_ignores_world fetch privacyApi "/predict" _
             {| slots := pending true s1; log := evs1 |}
             {| slots := pending true s2; log := evs2 |}).
  split; [reflexivity |].
  destruct (fst _); reflexivity.
Qed.
